(** * Metadata resolver of the youtube-downloader front end

    A shallow embedding of [services/gemini.ts]: the fallback synthesizer
    [getFallbackMetadata] and the resolver [fetchRealVideoMetadata], which
    races a query to a generative service against a 25 s timer.

    JavaScript values are an inductive type, exceptions an error monad, a
    promise the way it settles together with the instant at which it does.
    A timer fires at its delay.  The service and [JSON.parse] belong to the
    host and are parameters of the resolver.  What the code writes to the
    console is not part of the model. *)

From Stdlib Require Import String Ascii List ZArith NArith Lia Bool.
From Stdlib Require Import Floats.SpecFloat.
Import ListNotations.

Local Set Warnings "-register-all".

Local Open Scope list_scope.
Local Open Scope string_scope.

(** ** Strings *)

Module Str.

(** The double quote, as a one-character string. *)
Definition dquote : string := String (ascii_of_nat 34) EmptyString.

Fixpoint map (f : ascii -> ascii) (s : string) : string :=
  match s with
  | EmptyString => EmptyString
  | String c s' => String (f c) (map f s')
  end.

(** [js s] is [s] with every apostrophe turned into a double quote: JSON
    texts and the prompt are written with apostrophes below. *)
Definition js (s : string) : string :=
  map (fun c => if Ascii.eqb c "'"%char then ascii_of_nat 34 else c) s.

(** [String.prototype.includes]: [includes s pat] is [s.includes(pat)]. *)
Fixpoint includes (s pat : string) : bool :=
  if prefix pat s then true
  else match s with
       | EmptyString => false
       | String _ s' => includes s' pat
       end.

(** [pat] occurs in [s]: the specification of [includes]. *)
Definition occurs_in (pat s : string) : Prop :=
  exists before after, s = before ++ pat ++ after.

Definition nonempty (s : string) : bool :=
  match s with EmptyString => false | String _ _ => true end.

End Str.

(** ** JavaScript values *)

(** A number is an IEEE 754 binary64, as its specification type. *)
Definition number : Set := spec_float.

Inductive JSValue : Type :=
| JUndefined
| JNull
| JBool (b : bool)
| JNumber (x : number)
| JString (s : string)
| JArray (elems : list JSValue)
| JObject (props : list (string * JSValue)).

(** [ToBoolean]: the falsy values are undefined, null, false, the zeros, NaN
    and the empty string. *)
Definition ToBoolean (v : JSValue) : bool :=
  match v with
  | JUndefined | JNull => false
  | JBool b => b
  | JNumber (S754_zero _) | JNumber S754_nan => false
  | JNumber _ => true
  | JString s => Str.nonempty s
  | JArray _ | JObject _ => true
  end.

(** [a || b] on values. *)
Definition js_or (a b : JSValue) : JSValue :=
  if ToBoolean a then a else b.

Fixpoint assoc (k : string) (props : list (string * JSValue)) : option JSValue :=
  match props with
  | [] => None
  | (k', v) :: rest => if String.eqb k k' then Some v else assoc k rest
  end.

(** ** Exceptions *)

Inductive JSError : Type :=
| SyntaxError
| TypeError
| Error (message : string).

Inductive Completion (A : Type) : Type :=
| Normal (a : A)
| Throw (e : JSError).
Arguments Normal {A} a.
Arguments Throw {A} e.

Definition bind {A B} (c : Completion A) (k : A -> Completion B) : Completion B :=
  match c with
  | Normal a => k a
  | Throw e => Throw e
  end.

Notation "x <- c ;; k" := (bind c (fun x => k))
  (at level 61, c at next level, right associativity).

(** [try { body } catch (err) { handler }] for a handler that returns. *)
Definition try_catch {A} (body : Completion A) (handler : JSError -> A) : A :=
  match body with
  | Normal a => a
  | Throw e => handler e
  end.

(** ** The result type *)

(** The fields of [RealVideoMetadata].  The interface types them as strings
    (and a string-valued dictionary); at run time they hold whatever value the
    parsed payload held, so the record holds values. *)
Record RealVideoMetadata : Type := {
  title : JSValue;
  author : JSValue;
  views : JSValue;
  duration : JSValue;
  summary : JSValue;
  estimatedSizes : JSValue
}.

Inductive Field : Set :=
| f_title | f_author | f_views | f_duration | f_summary | f_estimatedSizes.

Definition all_fields : list Field :=
  [f_title; f_author; f_views; f_duration; f_summary; f_estimatedSizes].

Definition field_name (f : Field) : string :=
  match f with
  | f_title => "title"
  | f_author => "author"
  | f_views => "views"
  | f_duration => "duration"
  | f_summary => "summary"
  | f_estimatedSizes => "estimatedSizes"
  end.

Definition field (f : Field) (m : RealVideoMetadata) : JSValue :=
  match f with
  | f_title => title m
  | f_author => author m
  | f_views => views m
  | f_duration => duration m
  | f_summary => summary m
  | f_estimatedSizes => estimatedSizes m
  end.

(** [data.f] for one of the six property names the resolver reads.  Reading a
    property of null or undefined throws; booleans, numbers, strings and arrays
    have no own or inherited property of these names; an object answers with
    its own property. *)
Definition Get (data : JSValue) (f : Field) : Completion JSValue :=
  match data with
  | JUndefined | JNull => Throw TypeError
  | JBool _ | JNumber _ | JString _ | JArray _ => Normal JUndefined
  | JObject props =>
      Normal (match assoc (field_name f) props with
              | Some v => v
              | None => JUndefined
              end)
  end.

(** The five quality keys. *)
Definition quality_keys : list string :=
  ["2160p"; "1080p"; "720p"; "360p"; "audio"].

(** ** Fallback synthesizer *)

Definition fallback_sizes : JSValue :=
  JObject [("2160p", JString "1.4 GB");
           ("1080p", JString "450 MB");
           ("720p", JString "210 MB");
           ("360p", JString "65 MB");
           ("audio", JString "8.5 MB")].

Definition isYoutube (url : string) : bool :=
  Str.includes url "youtube.com" || Str.includes url "youtu.be".

Definition isVimeo (url : string) : bool :=
  Str.includes url "vimeo.com".

Definition getFallbackMetadata (url : string) : RealVideoMetadata :=
  {| title := JString "High-Definition Media Stream";
     author := JString (if isYoutube url then "YouTube Creator"
                        else if isVimeo url then "Vimeo Pro User"
                        else "Verified Source");
     views := JString "Live Stream";
     duration := JString "Detected";
     summary := JString "Real-time extraction bridge established. Securely pulling media packets from source CDN nodes.";
     estimatedSizes := fallback_sizes |}.

(** ** Promises *)

(** A promise is described by how and when it settles: [None] is a promise
    that never settles, [Some (t, s)] one that settles with [s] at [t]
    milliseconds after the resolver was called. *)
Inductive Settlement (A : Type) : Type :=
| Fulfilled (a : A)
| Rejected (e : JSError).
Arguments Fulfilled {A} a.
Arguments Rejected {A} e.

Definition Promise (A : Type) : Type := option (N * Settlement A).

(** [await p] inside a function body, once [p] has settled. *)
Definition await {A} (s : Settlement A) : Completion A :=
  match s with
  | Fulfilled a => Normal a
  | Rejected e => Throw e
  end.

(** The promise of an [async] function settles with the completion of its
    body. *)
Definition settle {A} (c : Completion A) : Settlement A :=
  match c with
  | Normal a => Fulfilled a
  | Throw e => Rejected e
  end.

(** An [async] function whose body awaits [p] once and then runs [body] on
    the outcome without further suspension. *)
Definition async_await {A B} (p : Promise A)
    (body : Completion A -> Completion B) : Promise B :=
  match p with
  | None => None
  | Some (t, s) => Some (t, settle (body (await s)))
  end.

(** [new Promise((_, reject) => setTimeout(() => reject(e), ms))]. *)
Definition reject_after {A} (ms : N) (e : JSError) : Promise A :=
  Some (ms, Rejected e).

(** [Promise.race([p, q])]: the first of the two to settle decides.  When
    both are due at the same millisecond the event loop's order of the two
    tasks decides, [q_first] tells which. *)
Definition Promise_race {A} (q_first : bool) (p q : Promise A) : Promise A :=
  match p, q with
  | None, _ => q
  | _, None => p
  | Some (tp, _), Some (tq, _) =>
      if (tp <? tq)%N then p
      else if (tq <? tp)%N then q
      else if q_first then q else p
  end.

(** ** The service *)

Record GenerateContentParameters : Type := {
  model : string;
  contents : string
}.

(** The response of the service, as far as the resolver reads it: the [text]
    accessor, of type [string | undefined]. *)
Record GenerateContentResponse : Type := {
  text : option string
}.

Definition prompt (url : string) : string :=
  "Research this video URL: " ++ url ++ Str.js ". 
        Return JSON with:
        1. title (exact)
        2. author (channel name)
        3. views (count)
        4. duration (time)
        5. summary (2 sentences)
        6. estimatedSizes (OBJECT with keys '2160p', '1080p', '720p', '360p', 'audio' providing REALISTIC file size strings based on duration).
        
        Example sizes for 10 min video: {'1080p': '150MB'}. Be accurate.".

(** The request; its [config] (search tool, response schema) is a constant
    and is left out. *)
Definition request (url : string) : GenerateContentParameters :=
  {| model := "gemini-3-flash-preview"; contents := prompt url |}.

(** ** The resolver *)

Definition TIMEOUT_MS : N := 25000.

Section Resolver.

(** The host's [JSON.parse]; it throws a [SyntaxError] on a text that is not
    JSON. *)
Variable JSON_parse : string -> Completion JSValue.

(** [ai.models.generateContent]: any behaviour of the service. *)
Variable generateContent :
  GenerateContentParameters -> Promise GenerateContentResponse.

(** Whether the timer's task runs first when the query settles at the very
    millisecond the timer is due. *)
Variable timer_first : bool.

Definition timeoutPromise : Promise RealVideoMetadata :=
  reject_after TIMEOUT_MS (Error "Request timed out").

(** [response.text || '{}'] *)
Definition text_or_empty_object (response : GenerateContentResponse) : string :=
  match text response with
  | Some s => if Str.nonempty s then s else "{}"
  | None => "{}"
  end.

(** The statements of the [try] block after the [await]. *)
Definition normalize (url : string) (response : GenerateContentResponse)
  : Completion RealVideoMetadata :=
  let text := text_or_empty_object response in
  data <- JSON_parse text ;;
  d_title <- Get data f_title ;;
  d_author <- Get data f_author ;;
  d_views <- Get data f_views ;;
  d_duration <- Get data f_duration ;;
  d_summary <- Get data f_summary ;;
  d_sizes <- Get data f_estimatedSizes ;;
  Normal {| title := js_or d_title (JString "Found Media Content");
            author := js_or d_author (JString "Source Verified");
            views := js_or d_views (JString "N/A");
            duration := js_or d_duration (JString "00:00");
            summary := js_or d_summary (JString "Media analysis complete.");
            estimatedSizes :=
              js_or d_sizes (estimatedSizes (getFallbackMetadata url)) |}.

Definition fetchPromise (url : string) : Promise RealVideoMetadata :=
  async_await (generateContent (request url))
    (fun awaited =>
       Normal (try_catch (response <- awaited ;; normalize url response)
                         (fun err => getFallbackMetadata url))).

Definition fetchRealVideoMetadata (url : string) : Promise RealVideoMetadata :=
  async_await (Promise_race timer_first (fetchPromise url) timeoutPromise)
    (fun awaited =>
       Normal (try_catch awaited (fun err => getFallbackMetadata url))).

End Resolver.

(** ** A reference [JSON.parse]

    The resolver is stated over any [JSON_parse]; to run it on concrete
    response texts, this is the ECMA-404 grammar as [JSON.parse] reads it.
    Strings are sequences of bytes holding UTF-8; a [\u] escape is stored as
    the UTF-8 bytes of its code point (of the pair, for a surrogate pair).
    The properties of an object are kept in the order of their first
    appearance. *)

Module JSON.

Local Open Scope N_scope.

Definition is_ws (c : ascii) : bool :=
  match c with
  | " "%char | "009"%char | "010"%char | "013"%char => true
  | _ => false
  end.

Fixpoint skip_ws (s : string) : string :=
  match s with
  | String c s' => if is_ws c then skip_ws s' else s
  | EmptyString => s
  end.

Definition is_dquote (c : ascii) : bool := Ascii.eqb c (ascii_of_nat 34).

Fixpoint strip_prefix (p s : string) : option string :=
  match p, s with
  | EmptyString, _ => Some s
  | String a p', String b s' => if Ascii.eqb a b then strip_prefix p' s' else None
  | String _ _, EmptyString => None
  end.

(** *** Numbers *)

Definition digit (c : ascii) : option N :=
  let n := N_of_ascii c in
  if (48 <=? n) && (n <=? 57) then Some (n - 48) else None.

(** Reads a run of decimal digits onto [acc]; counts them. *)
Fixpoint digits (s : string) (acc count : N) : N * N * string :=
  match s with
  | String c s' =>
      match digit c with
      | Some d => digits s' (10 * acc + d) (count + 1)
      | None => (acc, count, s)
      end
  | EmptyString => (acc, count, s)
  end.

(** [0] or a run of digits that does not start with [0]. *)
Definition int_part (s : string) : option (N * string) :=
  match s with
  | String c s' =>
      match digit c with
      | Some 0 => Some (0, s')
      | Some _ => let '(i, _, rest) := digits s 0 0 in Some (i, rest)
      | None => None
      end
  | EmptyString => None
  end.

(** An optional [.] with at least one digit: the digits extend the
    mantissa [m]; their count is returned. *)
Definition frac_part (m : N) (s : string) : option (N * N * string) :=
  match s with
  | String "."%char s' =>
      let '(m', k, rest) := digits s' m 0 in
      if k =? 0 then None else Some (m', k, rest)
  | _ => Some (m, 0, s)
  end.

Definition exp_part (s : string) : option (Z * string) :=
  match s with
  | String c s' =>
      if Ascii.eqb c "e" || Ascii.eqb c "E" then
        let '(neg, s'') :=
          match s' with
          | String "-"%char r => (true, r)
          | String "+"%char r => (false, r)
          | _ => (false, s')
          end in
        let '(e, k, rest) := digits s'' 0 0 in
        if k =? 0 then None
        else Some (if neg then (- Z.of_N e)%Z else Z.of_N e, rest)
      else Some (0%Z, s)
  | EmptyString => Some (0%Z, s)
  end.

Definition prec : Z := 53.
Definition emax : Z := 1024.

(** The binary64 nearest to [(-1)^neg * m * 10^e], ties to even. *)
Definition decimal_to_number (neg : bool) (m : N) (e : Z) : number :=
  match m with
  | N0 => S754_zero neg
  | Npos p =>
      match e with
      | Zneg k =>
          let '(q, e', l) :=
            SFdiv_core_binary prec emax (Zpos p) 0 (Z.pow_pos 10 k) 0 in
          binary_round_aux prec emax neg q e' l
      | Z0 => binary_round prec emax neg p 0
      | Zpos k => binary_round prec emax neg (p * Pos.pow 10 k) 0
      end
  end.

Definition parse_number (s : string) : option (number * string) :=
  let '(neg, s0) :=
    match s with
    | String "-"%char r => (true, r)
    | _ => (false, s)
    end in
  match int_part s0 with
  | None => None
  | Some (i, s1) =>
      match frac_part i s1 with
      | None => None
      | Some (m, k, s2) =>
          match exp_part s2 with
          | None => None
          | Some (e, s3) =>
              Some (decimal_to_number neg m (e - Z.of_N k), s3)
          end
      end
  end.

(** *** Strings *)

Definition hex (c : ascii) : option N :=
  let n := N_of_ascii c in
  if (48 <=? n) && (n <=? 57) then Some (n - 48)
  else if (65 <=? n) && (n <=? 70) then Some (n - 55)
  else if (97 <=? n) && (n <=? 102) then Some (n - 87)
  else None.

Definition hex4 (a b c d : ascii) : option N :=
  match hex a, hex b, hex c, hex d with
  | Some x, Some y, Some z, Some w => Some (((x * 16 + y) * 16 + z) * 16 + w)
  | _, _, _, _ => None
  end.

Definition byte (n : N) : ascii := ascii_of_N n.
Definition cont (n : N) : ascii := byte (128 + n mod 64).

Definition utf8 (cp : N) : string :=
  if cp <? 128 then String (byte cp) EmptyString
  else if cp <? 2048 then
    String (byte (192 + cp / 64)) (String (cont cp) EmptyString)
  else if cp <? 65536 then
    String (byte (224 + cp / 4096))
      (String (cont (cp / 64)) (String (cont cp) EmptyString))
  else
    String (byte (240 + cp / 262144))
      (String (cont (cp / 4096))
         (String (cont (cp / 64)) (String (cont cp) EmptyString))).

Definition is_high (cp : N) : bool := (55296 <=? cp) && (cp <=? 56319).
Definition is_low (cp : N) : bool := (56320 <=? cp) && (cp <=? 57343).

Definition flush (pending : option N) : string :=
  match pending with
  | Some h => utf8 h
  | None => EmptyString
  end.

Definition simple_escape (c : ascii) : option ascii :=
  match c with
  | "\"%char => Some "\"%char
  | "/"%char => Some "/"%char
  | "b"%char => Some "008"%char
  | "f"%char => Some "012"%char
  | "n"%char => Some "010"%char
  | "r"%char => Some "013"%char
  | "t"%char => Some "009"%char
  | _ => if is_dquote c then Some c else None
  end.

Definition emit (out : string) (r : option (string * string))
  : option (string * string) :=
  match r with
  | Some (body, rest) => Some ((out ++ body)%string, rest)
  | None => None
  end.

(** The characters of a string after its opening quote, up to and
    including the closing one.  [pending] is a high surrogate read from a
    [\u] escape and not yet paired. *)
Fixpoint string_chars (s : string) (pending : option N)
  : option (string * string) :=
  match s with
  | EmptyString => None
  | String c r =>
      if is_dquote c then Some (flush pending, r)
      else if Ascii.eqb c "\" then
        match r with
        | String "u"%char (String h1 (String h2 (String h3 (String h4 r')))) =>
            match hex4 h1 h2 h3 h4 with
            | None => None
            | Some cp =>
                match pending with
                | Some h =>
                    if is_low cp then
                      emit (utf8 (65536 + (h - 55296) * 1024 + (cp - 56320)))
                           (string_chars r' None)
                    else if is_high cp then
                      emit (utf8 h) (string_chars r' (Some cp))
                    else emit (utf8 h ++ utf8 cp)%string (string_chars r' None)
                | None =>
                    if is_high cp then string_chars r' (Some cp)
                    else emit (utf8 cp) (string_chars r' None)
                end
            end
        | String e r' =>
            match simple_escape e with
            | Some c' =>
                emit (flush pending ++ String c' EmptyString)%string
                     (string_chars r' None)
            | None => None
            end
        | EmptyString => None
        end
      else if N_of_ascii c <? 32 then None
      else emit (flush pending ++ String c EmptyString)%string
                (string_chars r None)
  end.

(** *** Values *)

(** Defines property [k]: a later member of the same name replaces the
    value of the earlier one. *)
Fixpoint set_prop (k : string) (v : JSValue) (props : list (string * JSValue))
  : list (string * JSValue) :=
  match props with
  | [] => [(k, v)]
  | (k', v') :: rest =>
      if String.eqb k k' then (k, v) :: rest
      else (k', v') :: set_prop k v rest
  end.

Definition literal (word : string) (v : JSValue) (s : string)
  : option (JSValue * string) :=
  match strip_prefix word s with
  | Some rest => Some (v, rest)
  | None => None
  end.

(** Recursive descent.  A level of nesting takes two units of fuel and has
    two characters of its own, its brackets; a further element or member
    takes one unit and has at least two characters.  So on a well-formed
    text a fuel of one more than its length is not exhausted, and on any
    other text the answer is a rejection either way. *)
Fixpoint parse_value (fuel : nat) (s : string) {struct fuel}
  : option (JSValue * string) :=
  match fuel with
  | O => None
  | S fuel' =>
      match skip_ws s with
      | EmptyString => None
      | String c r as s0 =>
          if is_dquote c then
            match string_chars r None with
            | Some (str, rest) => Some (JString str, rest)
            | None => None
            end
          else
            match c with
            | "{"%char =>
                match skip_ws r with
                | String "}"%char rest => Some (JObject [], rest)
                | r' => parse_members fuel' r' []
                end
            | "["%char =>
                match skip_ws r with
                | String "]"%char rest => Some (JArray [], rest)
                | r' => parse_elements fuel' r' []
                end
            | "t"%char => literal "true" (JBool true) s0
            | "f"%char => literal "false" (JBool false) s0
            | "n"%char => literal "null" JNull s0
            | _ =>
                match parse_number s0 with
                | Some (x, rest) => Some (JNumber x, rest)
                | None => None
                end
            end
      end
  end
with parse_elements (fuel : nat) (s : string) (acc : list JSValue)
       {struct fuel} : option (JSValue * string) :=
  match fuel with
  | O => None
  | S fuel' =>
      match parse_value fuel' s with
      | Some (v, rest) =>
          match skip_ws rest with
          | String ","%char rest' => parse_elements fuel' rest' (v :: acc)
          | String "]"%char rest' => Some (JArray (rev (v :: acc)), rest')
          | _ => None
          end
      | None => None
      end
  end
with parse_members (fuel : nat) (s : string) (acc : list (string * JSValue))
       {struct fuel} : option (JSValue * string) :=
  match fuel with
  | O => None
  | S fuel' =>
      match skip_ws s with
      | String q r =>
          if is_dquote q then
            match string_chars r None with
            | Some (k, rest) =>
                match skip_ws rest with
                | String ":"%char rest' =>
                    match parse_value fuel' rest' with
                    | Some (v, rest'') =>
                        match skip_ws rest'' with
                        | String ","%char t =>
                            parse_members fuel' t (set_prop k v acc)
                        | String "}"%char t =>
                            Some (JObject (set_prop k v acc), t)
                        | _ => None
                        end
                    | None => None
                    end
                | _ => None
                end
            | None => None
            end
          else None
      | EmptyString => None
      end
  end.

Definition parse (text : string) : Completion JSValue :=
  match parse_value (S (String.length text)) text with
  | Some (v, rest) =>
      match skip_ws rest with
      | EmptyString => Normal v
      | String _ _ => Throw SyntaxError
      end
  | None => Throw SyntaxError
  end.

End JSON.

(** * Definitions used in the statements *)

(** ** Classification of URLs *)

(** The platforms as the specification names them. *)
Inductive Platform : Set := Primary | Secondary | Generic.

Definition on_primary (url : string) : Prop :=
  Str.occurs_in "youtube.com" url \/ Str.occurs_in "youtu.be" url.

Definition on_secondary (url : string) : Prop :=
  Str.occurs_in "vimeo.com" url.

(** The three-way classification: the primary pattern first, then the
    secondary one, the generic class for the rest. *)
Inductive classified (url : string) : Platform -> Prop :=
| is_primary : on_primary url -> classified url Primary
| is_secondary : ~ on_primary url -> on_secondary url -> classified url Secondary
| is_generic : ~ on_primary url -> ~ on_secondary url -> classified url Generic.

Definition placeholder (p : Platform) : string :=
  match p with
  | Primary => "YouTube Creator"
  | Secondary => "Vimeo Pro User"
  | Generic => "Verified Source"
  end.

(** ** Shape of a result *)

(** A field is populated when it is neither undefined nor null. *)
Definition populated (v : JSValue) : Prop := v <> JUndefined /\ v <> JNull.

Definition is_nonempty_string (v : JSValue) : bool :=
  match v with
  | JString s => Str.nonempty s
  | _ => false
  end.

(** [sizes[k]] for a quality key [k]: the own property of an object,
    undefined on any other value a result can hold. *)
Definition size_of (sizes : JSValue) (k : string) : JSValue :=
  match sizes with
  | JObject props =>
      match assoc k props with
      | Some v => v
      | None => JUndefined
      end
  | _ => JUndefined
  end.

(** [sizes] is a mapping that binds [k] to a non-empty string. *)
Definition binds_quality (sizes : JSValue) (k : string) : bool :=
  is_nonempty_string (size_of sizes k).

(** Every field a non-empty string, and the size mapping binding all five
    quality keys to non-empty strings. *)
Definition well_shaped (m : RealVideoMetadata) : bool :=
  is_nonempty_string (title m) && is_nonempty_string (author m)
  && is_nonempty_string (views m) && is_nonempty_string (duration m)
  && is_nonempty_string (summary m)
  && forallb (binds_quality (estimatedSizes m)) quality_keys.

(** The documented default of each field. *)
Definition default_of (f : Field) : JSValue :=
  match f with
  | f_title => JString "Found Media Content"
  | f_author => JString "Source Verified"
  | f_views => JString "N/A"
  | f_duration => JString "00:00"
  | f_summary => JString "Media analysis complete."
  | f_estimatedSizes => fallback_sizes
  end.

(** The result made of the defaults alone. *)
Definition all_defaults : RealVideoMetadata :=
  {| title := default_of f_title;
     author := default_of f_author;
     views := default_of f_views;
     duration := default_of f_duration;
     summary := default_of f_summary;
     estimatedSizes := default_of f_estimatedSizes |}.

(** A field of a payload is well formed when it has the type the data model
    gives it: a non-empty string, an object for the size mapping. *)
Definition well_formed (f : Field) (v : JSValue) : bool :=
  match f with
  | f_estimatedSizes =>
      match v with
      | JObject _ => true
      | _ => false
      end
  | _ => is_nonempty_string v
  end.

(** ** Behaviours of the service *)

Definition Service : Type :=
  GenerateContentParameters -> Promise GenerateContentResponse.

Definition never_settles : Service := fun _ => None.

Definition rejects_at (t : N) (message : string) : Service :=
  fun _ => Some (t, Rejected (Error message)).

Definition responds_at (t : N) (body : option string) : Service :=
  fun _ => Some (t, Fulfilled {| text := body |}).

(** The ways in which the query fails once the service has settled with [s]:
    the service rejects (network or service error), the text is not JSON, or
    the text is the JSON [null], whose properties cannot be read. *)
Inductive query_fails (JSON_parse : string -> Completion JSValue)
  : Settlement GenerateContentResponse -> Prop :=
| service_rejects (e : JSError) : query_fails JSON_parse (Rejected e)
| malformed_json (r : GenerateContentResponse) (e : JSError) :
    JSON_parse (text_or_empty_object r) = Throw e ->
    query_fails JSON_parse (Fulfilled r)
| null_payload (r : GenerateContentResponse) :
    JSON_parse (text_or_empty_object r) = Normal JNull ->
    query_fails JSON_parse (Fulfilled r).

(** What [fetchPromise] is fulfilled with once the service has settled with
    [s]: the body of its [try] block, or of its [catch]. *)
Definition query_value (JSON_parse : string -> Completion JSValue)
    (url : string) (s : Settlement GenerateContentResponse)
  : RealVideoMetadata :=
  try_catch (response <- await s ;; normalize JSON_parse url response)
            (fun _ => getFallbackMetadata url).

(** ** Response texts *)

(** All six fields, the size mapping with its five keys. *)
Definition full_payload : string :=
  Str.js "{'title': 'Big Buck Bunny', 'author': 'Blender', 'views': '1,204,551', 'duration': '9:56', 'summary': 'A short film. It is open.', 'estimatedSizes': {'2160p': '1.1 GB', '1080p': '150MB', '720p': '90 MB', '360p': '30 MB', 'audio': '9 MB'}}".

(** No author, three of the five size keys. *)
Definition partial_payload : string :=
  Str.js "{'title': 'Big Buck Bunny', 'views': '1,204,551', 'duration': '9:56', 'summary': 'A short film. It is open.', 'estimatedSizes': {'1080p': '150MB', '720p': '90 MB', '360p': '30 MB'}}".

(** A numeric title and a size mapping that is a string. *)
Definition ill_typed_payload : string :=
  Str.js "{'title': 42, 'author': 'Blender', 'views': '1,204,551', 'duration': '9:56', 'summary': 'A short film. It is open.', 'estimatedSizes': 'unknown'}".

(** All six fields, the size mapping as in the prompt's own example. *)
Definition prompt_example_payload : string :=
  Str.js "{'title': 'Big Buck Bunny', 'author': 'Blender', 'views': '1,204,551', 'duration': '9:56', 'summary': 'A short film. It is open.', 'estimatedSizes': {'1080p': '150MB'}}".

Definition a_url : string := "https://www.youtube.com/watch?v=aqz-KE-bpKQ".


(** ** Three statements of the specification, as it words them *)

(** Per-key merge: each quality key of the result bound to the payload's
    value when the payload has one, to the fallback table's otherwise. *)
Definition sizes_merged_per_key : Prop :=
  forall (JSON_parse : string -> Completion JSValue)
         (generateContent : Service) (timer_first : bool) (url : string)
         (t : N) (r : GenerateContentResponse)
         (props provided : list (string * JSValue)),
    generateContent (request url) = Some (t, Fulfilled r) ->
    (t < TIMEOUT_MS)%N ->
    JSON_parse (text_or_empty_object r) = Normal (JObject props) ->
    assoc "estimatedSizes" props = Some (JObject provided) ->
    exists m,
      fetchRealVideoMetadata JSON_parse generateContent timer_first url
      = Some (t, Fulfilled m)
      /\ forall k, In k quality_keys ->
           size_of (estimatedSizes m) k =
           match assoc k provided with
           | Some v => v
           | None => size_of fallback_sizes k
           end.

(** Every result well shaped. *)
Definition always_well_shaped : Prop :=
  forall (JSON_parse : string -> Completion JSValue)
         (generateContent : Service) (timer_first : bool) (url : string),
    exists t m,
      fetchRealVideoMetadata JSON_parse generateContent timer_first url
      = Some (t, Fulfilled m)
      /\ well_shaped m = true.

(** Every absent or malformed field replaced by its default. *)
Definition malformed_fields_replaced : Prop :=
  forall (JSON_parse : string -> Completion JSValue)
         (generateContent : Service) (timer_first : bool) (url : string)
         (t : N) (r : GenerateContentResponse) (data : JSValue),
    generateContent (request url) = Some (t, Fulfilled r) ->
    (t < TIMEOUT_MS)%N ->
    JSON_parse (text_or_empty_object r) = Normal data ->
    data <> JNull -> data <> JUndefined ->
    exists m,
      fetchRealVideoMetadata JSON_parse generateContent timer_first url
      = Some (t, Fulfilled m)
      /\ forall f, exists v,
           Get data f = Normal v
           /\ field f m = if well_formed f v then v else default_of f.

(** * The user interface

    The functions of [App.tsx] that decide something: the two URL tests, the
    capture handler that calls the resolver, the thumbnail handler and the
    name of the saved file.  They read texts by UTF-16 code units, so a text
    is here a list of code units; the resolver's texts, which hold UTF-8,
    are converted at the border. *)

(** ** Code units *)

Module Utf16.

Local Open Scope list_scope.
Local Open Scope N_scope.

Definition jsstring : Type := list N.

(** A literal of the source; the literals are ASCII. *)
Definition lit (s : string) : jsstring :=
  List.map N_of_ascii (list_ascii_of_string s).

(** The UTF-8 text of a list of code units: a surrogate pair is one code
    point, a lone surrogate is written like any other code unit. *)
Fixpoint encode (s : jsstring) : string :=
  match s with
  | [] => EmptyString
  | h :: t =>
      if JSON.is_high h then
        match t with
        | l :: t' =>
            if JSON.is_low l then
              (JSON.utf8 (65536 + (h - 55296) * 1024 + (l - 56320))
               ++ encode t')%string
            else (JSON.utf8 h ++ encode t)%string
        | [] => JSON.utf8 h
        end
      else (JSON.utf8 h ++ encode t)%string
  end.

Definition emit (cp : N) : jsstring :=
  if cp <? 65536 then [cp]
  else [55296 + (cp - 65536) / 1024; 56320 + (cp - 65536) mod 1024].

(** Reads UTF-8: [need] continuation bytes are still due for the code point
    begun in [acc].  A byte out of place is skipped. *)
Fixpoint decode (s : string) (need : nat) (acc : N) : jsstring :=
  match s with
  | EmptyString => []
  | String b r =>
      let n := N_of_ascii b in
      if n <? 128 then n :: decode r 0 0
      else if n <? 192 then
        match need with
        | O => decode r 0 0
        | S O => emit (acc * 64 + (n - 128)) ++ decode r 0 0
        | S k => decode r k (acc * 64 + (n - 128))
        end
      else if n <? 224 then decode r 1 (n - 192)
      else if n <? 240 then decode r 2 (n - 224)
      else decode r 3 (n - 240)
  end.

(** The code units of a UTF-8 text. *)
Definition units (s : string) : jsstring := decode s 0 0.

(** [!s] for a text. *)
Definition is_empty (s : jsstring) : bool :=
  match s with [] => true | _ :: _ => false end.

(** White space and line terminators, as [String.prototype.trim] strips
    them. *)
Definition is_space (u : N) : bool :=
  ((9 <=? u) && (u <=? 13)) || (u =? 32) || (u =? 160) || (u =? 5760)
  || ((8192 <=? u) && (u <=? 8202)) || (u =? 8232) || (u =? 8233)
  || (u =? 8239) || (u =? 8287) || (u =? 12288) || (u =? 65279).

Fixpoint trimStart (s : jsstring) : jsstring :=
  match s with
  | u :: s' => if is_space u then trimStart s' else s
  | [] => []
  end.

Definition trimEnd (s : jsstring) : jsstring := rev (trimStart (rev s)).

Definition trim (s : jsstring) : jsstring := trimEnd (trimStart s).

Fixpoint startsWith (s p : jsstring) : bool :=
  match p, s with
  | [], _ => true
  | a :: p', b :: s' => (a =? b) && startsWith s' p'
  | _ :: _, [] => false
  end.

(** [toLowerCase] on a text of ASCII code units; the code applies it to
    such texts only (see [safeName]). *)
Definition toLowerCase (s : jsstring) : jsstring :=
  List.map (fun u => if (65 <=? u) && (u <=? 90) then u + 32 else u) s.

End Utf16.

(** ** Regular expressions *)

(** The part of the pattern language the three patterns of [App.tsx] use,
    and its backtracking matcher: alternatives in order, quantifiers greedy,
    a group holding the text of its last pass. *)

Module Re.

Import Utf16.
Local Open Scope list_scope.

Inductive RegExp : Type :=
| Char (p : N -> bool)       (* one code unit: a character, a class, a dot *)
| Bol                        (* ^ *)
| Eol                        (* $ *)
| Eps
| Seq (a b : RegExp)
| Alt (a b : RegExp)         (* a|b *)
| StarChar (p : N -> bool)   (* x* for a one-unit x *)
| Opt (a : RegExp)           (* a? *)
| Group (n : nat) (a : RegExp).

Definition captures : Type := list (nat * jsstring).

Fixpoint capture (n : nat) (c : captures) : option jsstring :=
  match c with
  | [] => None
  | (k, v) :: c' => if Nat.eqb n k then Some v else capture n c'
  end.

(** Continuations take the index reached, the text left and the groups. *)
Definition cont (R : Type) : Type := nat -> jsstring -> captures -> option R.

(** Greedy: one more unit first, the continuation here if that fails. *)
Fixpoint star {R} (p : N -> bool) (i : nat) (s : jsstring) (c : captures)
    (k : cont R) : option R :=
  match s with
  | u :: s' =>
      if p u then
        match star p (S i) s' c k with
        | Some r => Some r
        | None => k i s c
        end
      else k i s c
  | [] => k i s c
  end.

Fixpoint m {R} (r : RegExp) (i : nat) (s : jsstring) (c : captures)
    (k : cont R) : option R :=
  match r with
  | Char p =>
      match s with
      | u :: s' => if p u then k (S i) s' c else None
      | [] => None
      end
  | Bol => if Nat.eqb i 0 then k i s c else None
  | Eol => match s with [] => k i s c | _ :: _ => None end
  | Eps => k i s c
  | Seq a b => m a i s c (fun i' s' c' => m b i' s' c' k)
  | Alt a b =>
      match m a i s c k with
      | Some r => Some r
      | None => m b i s c k
      end
  | StarChar p => star p i s c k
  | Opt a =>
      match m a i s c k with
      | Some r => Some r
      | None => k i s c
      end
  | Group n a =>
      m a i s c (fun i' s' c' => k i' s' ((n, firstn (i' - i) s) :: c'))
  end.

(** A match that starts at [i], where [s] is the text from [i] on: the end
    index and the groups. *)
Definition match_at (r : RegExp) (i : nat) (s : jsstring)
  : option (nat * captures) :=
  m r i s [] (fun e _ c => Some (e, c)).

(** [RegExpBuiltinExec] without the [g] and [y] flags: the first index, from
    [i] on, at which the pattern matches. *)
Fixpoint exec (r : RegExp) (i : nat) (s : jsstring)
  : option (nat * nat * captures) :=
  match match_at r i s with
  | Some (e, c) => Some (i, e, c)
  | None =>
      match s with
      | [] => None
      | _ :: s' => exec r (S i) s'
      end
  end.

(** [r.test(s)] *)
Definition test (r : RegExp) (s : jsstring) : bool :=
  match exec r 0 s with Some _ => true | None => false end.

(** [s.match(r)], as the groups of the match. *)
Definition match_ (r : RegExp) (s : jsstring) : option captures :=
  match exec r 0 s with
  | Some (_, _, c) => Some c
  | None => None
  end.

(** [s.split(r)[0]]: the text before the first index at which the pattern
    matches something that does not end at index 0; the whole text when
    there is none.  [None] is [undefined], the first element of the empty
    array that the empty text gives when the pattern matches it. *)
Fixpoint split_scan (r : RegExp) (i : nat) (s : jsstring) : jsstring :=
  match s with
  | [] => []
  | u :: s' =>
      match match_at r i s with
      | Some (e, _) => if Nat.eqb e 0 then u :: split_scan r (S i) s' else []
      | None => u :: split_scan r (S i) s'
      end
  end.

Definition split_head (r : RegExp) (s : jsstring) : option jsstring :=
  match s with
  | [] => match match_at r 0 [] with Some _ => None | None => Some [] end
  | _ :: _ => Some (split_scan r 0 s)
  end.

(** [s.replace(r, rep)] for a pattern with the [g] flag and a replacement
    without [$]: [skip] units of the current match are still to be dropped. *)
Fixpoint replace_scan (r : RegExp) (rep : jsstring) (i : nat) (skip : nat)
    (s : jsstring) : jsstring :=
  match s with
  | [] =>
      match skip, match_at r i [] with
      | O, Some _ => rep
      | _, _ => []
      end
  | u :: s' =>
      match skip with
      | S k => replace_scan r rep (S i) k s'
      | O =>
          match match_at r i s with
          | Some (e, _) =>
              match e - i with
              | O => rep ++ u :: replace_scan r rep (S i) 0 s'
              | S k => rep ++ replace_scan r rep (S i) k s'
              end
          | None => u :: replace_scan r rep (S i) 0 s'
          end
      end
  end.

Definition replace_all (r : RegExp) (rep : jsstring) (s : jsstring) : jsstring :=
  replace_scan r rep 0 0 s.

(** *** Atoms *)

Local Open Scope N_scope.

Definition code (a : ascii) : N := N_of_ascii a.

Definition chr (a : ascii) (u : N) : bool := u =? code a.

Definition LineTerminator (u : N) : bool :=
  (u =? 10) || (u =? 13) || (u =? 8232) || (u =? 8233).

(** [.] *)
Definition dot (u : N) : bool := negb (LineTerminator u).

(** [\w] *)
Definition word (u : N) : bool :=
  ((97 <=? u) && (u <=? 122)) || ((65 <=? u) && (u <=? 90))
  || ((48 <=? u) && (u <=? 57)) || (u =? 95).

(** [[^...]] over single characters. *)
Definition none_of (l : list ascii) (u : N) : bool :=
  negb (existsb (fun a => u =? code a) l).

(** [Canonicalize] under the [i] flag without [u]: the upper case of a
    code unit, except that a unit from 128 on is never sent below 128.  The
    patterns are ASCII, so all that matters of the units from 128 on is
    that they stay there; they are left as they are. *)
Definition Canonicalize (u : N) : N :=
  if (97 <=? u) && (u <=? 122) then u - 32 else u.

Definition chr_i (a : ascii) (u : N) : bool :=
  Canonicalize u =? Canonicalize (code a).

Fixpoint members (lo : N) (count : nat) : list N :=
  match count with
  | O => []
  | S k => lo :: members (lo + 1) k
  end.

(** The characters from [a] to [b]. *)
Definition range (a b : ascii) : list N :=
  members (code a) (S (N.to_nat (code b - code a))).

(** A class under the [i] flag: some member has the canonical form of the
    unit. *)
Definition class_i (set : list N) (u : N) : bool :=
  existsb (fun a => Canonicalize a =? Canonicalize u) set.

Fixpoint chars (f : ascii -> N -> bool) (s : string) : RegExp :=
  match s with
  | EmptyString => Eps
  | String a s' => Seq (Char (f a)) (chars f s')
  end.

(** A run of literal characters, and the same under the [i] flag. *)
Definition str (s : string) : RegExp := chars chr s.
Definition str_i (s : string) : RegExp := chars chr_i s.

Fixpoint alt (rs : list RegExp) : RegExp :=
  match rs with
  | [] => Eps
  | [r] => r
  | r :: rs' => Alt r (alt rs')
  end.

End Re.

(** ** Types *)

Module Types.

Inductive DownloadStatus : Set :=
| IDLE | FETCHING | READY | DOWNLOADING | COMPLETED | ERROR.

(** The interface types [size] as a string; it holds what the size mapping
    of the resolver's result held. *)
Record VideoFormat : Type := {
  quality : string;
  label : string;
  size : JSValue;
  ext : string
}.

Record VideoMetadata : Type := {
  title : JSValue;
  thumbnail : Utf16.jsstring;
  author : JSValue;
  duration : JSValue;
  views : JSValue;
  aiSummary : option JSValue;
  formats : option (list VideoFormat)
}.

Definition DEFAULT_FORMATS : list VideoFormat :=
  [ {| quality := "2160p"; label := "4K Ultra HD";
       size := JString "Calculating..."; ext := "MP4" |};
    {| quality := "1080p"; label := "Full HD";
       size := JString "Calculating..."; ext := "MP4" |};
    {| quality := "720p"; label := "HD";
       size := JString "Calculating..."; ext := "MP4" |};
    {| quality := "360p"; label := "Low Quality";
       size := JString "Calculating..."; ext := "MP4" |};
    {| quality := "audio"; label := "Audio Only";
       size := JString "Calculating..."; ext := "M4A" |} ].

End Types.

(** ** The application *)

Module App.

Import Utf16.
Local Open Scope list_scope.

(** The pattern of [getYouTubeID], piece by piece:
    [^.*], then group 1, one of [(youtu.be\/)], [(v\/)], [(\/u\/\w\/)],
    [(embed\/)] and [(watch\?)], the groups 2 to 6, then [\??v?=?], then
    group 7, any run of characters other than [#], [&] and [?], then [.*]. *)
Definition marks : Re.RegExp :=
  Re.Group 1
    (Re.Alt
       (Re.Group 2
          (Re.Seq (Re.str "youtu") (Re.Seq (Re.Char Re.dot) (Re.str "be/"))))
       (Re.Alt
          (Re.Group 3 (Re.str "v/"))
          (Re.Alt
             (Re.Group 4
                (Re.Seq (Re.str "/u/") (Re.Seq (Re.Char Re.word) (Re.str "/"))))
             (Re.Alt
                (Re.Group 5 (Re.str "embed/"))
                (Re.Group 6 (Re.str "watch?")))))).

Definition id_chars : N -> bool := Re.none_of ["#"; "&"; "?"]%char.

Definition tail : Re.RegExp :=
  Re.Seq (Re.Opt (Re.Char (Re.chr "?")))
    (Re.Seq (Re.Opt (Re.Char (Re.chr "v")))
       (Re.Seq (Re.Opt (Re.Char (Re.chr "=")))
          (Re.Seq (Re.Group 7 (Re.StarChar id_chars))
             (Re.StarChar Re.dot)))).

Definition regExp : Re.RegExp :=
  Re.Seq Re.Bol (Re.Seq (Re.StarChar Re.dot) (Re.Seq marks tail)).

(** [null] is [None].  [match[7]] is read whatever the match holds; reading
    the length of an undefined group would throw. *)
Definition getYouTubeID (url : jsstring) : Completion (option jsstring) :=
  match Re.match_ regExp url with
  | None => Normal None
  | Some groups =>
      match Re.capture 7 groups with
      | None => Throw TypeError
      | Some id => Normal (if Nat.eqb (length id) 11 then Some id else None)
      end
  end.

(** The pattern [/[?#]/]. *)
Definition separator : Re.RegExp :=
  Re.Char (fun u => negb (Re.none_of ["?"; "#"]%char u)).

(** The pattern [/\.(mp4|webm|ogg|mov|m4v|m4a|mp3|avi|mkv|flv)$/i]. *)
Definition extension : Re.RegExp :=
  Re.Seq (Re.Char (Re.chr_i "."))
    (Re.Seq
       (Re.Group 1
          (Re.alt (List.map Re.str_i
                     ["mp4"; "webm"; "ogg"; "mov"; "m4v"; "m4a"; "mp3"; "avi";
                      "mkv"; "flv"]%string)))
       Re.Eol).

(** Nothing in the [try] block throws; its [catch] is not reached.  The
    first element of the split is undefined only for the empty array, and
    [test] then reads the text "undefined". *)
Definition isDirectVideoLink (url : jsstring) : bool :=
  let cleanUrl :=
    match Re.split_head separator url with
    | Some head => head
    | None => lit "undefined"
    end in
  Re.test extension cleanUrl.

(** The state of the component. *)
Record AppState : Type := {
  url : jsstring;
  status : Types.DownloadStatus;
  metadata : option Types.VideoMetadata;
  selectedFormat : option Types.VideoFormat;
  progress : number;
  thumbnailErrorCount : N
}.

Definition zero : number := S754_zero false.

Definition setStatus (v : Types.DownloadStatus) (st : AppState) : AppState :=
  {| url := url st; status := v; metadata := metadata st;
     selectedFormat := selectedFormat st; progress := progress st;
     thumbnailErrorCount := thumbnailErrorCount st |}.

Definition setMetadata (v : option Types.VideoMetadata) (st : AppState)
  : AppState :=
  {| url := url st; status := status st; metadata := v;
     selectedFormat := selectedFormat st; progress := progress st;
     thumbnailErrorCount := thumbnailErrorCount st |}.

Definition setThumbnailErrorCount (v : N) (st : AppState) : AppState :=
  {| url := url st; status := status st; metadata := metadata st;
     selectedFormat := selectedFormat st; progress := progress st;
     thumbnailErrorCount := v |}.

(** [sizes[k]] for a quality key [k]: reading a property of null or
    undefined throws; an object answers with its own property; no other
    value has a property of one of these names. *)
Definition GetQuality (sizes : JSValue) (k : string) : Completion JSValue :=
  match sizes with
  | JUndefined | JNull => Throw TypeError
  | JObject props =>
      Normal (match assoc k props with
              | Some v => v
              | None => JUndefined
              end)
  | JBool _ | JNumber _ | JString _ | JArray _ => Normal JUndefined
  end.

Fixpoint map_throwing {A B} (f : A -> Completion B) (l : list A)
  : Completion (list B) :=
  match l with
  | [] => Normal []
  | a :: l' =>
      b <- f a ;;
      bs <- map_throwing f l' ;;
      Normal (b :: bs)
  end.

(** [DEFAULT_FORMATS.map(f => ({...f, size: sizes[f.quality] || f.size}))] *)
Definition updatedFormats (realInfo : RealVideoMetadata)
  : Completion (list Types.VideoFormat) :=
  map_throwing
    (fun f =>
       s <- GetQuality (estimatedSizes realInfo) (Types.quality f) ;;
       Normal {| Types.quality := Types.quality f;
                 Types.label := Types.label f;
                 Types.size := js_or s (Types.size f);
                 Types.ext := Types.ext f |})
    Types.DEFAULT_FORMATS.

(** [videoId ? `https://i.ytimg.com/vi/${videoId}/maxresdefault.jpg` : ...];
    [null] and the empty text are falsy. *)
Definition thumbnailOf (videoId : option jsstring) : jsstring :=
  match videoId with
  | Some ((_ :: _) as id) =>
      lit "https://i.ytimg.com/vi/" ++ id ++ lit "/maxresdefault.jpg"
  | _ =>
      lit "https://images.unsplash.com/photo-1598897349388-bc48d4cdb0ee?auto=format&fit=crop&q=80&w=800"
  end.

(** What a call of [handleFetch] does: it alerts and leaves the state as it
    is, or it sets the state [during] at once and the state its promise is
    fulfilled with when the resolver has settled. *)
Inductive FetchRun : Type :=
| Refused (alert : string)
| Started (during : AppState) (finish : Promise AppState).

Section Handlers.

Variable JSON_parse : string -> Completion JSValue.
Variable generateContent : Service.
Variable timer_first : bool.

(** The statements of the [try] block after the [await]. *)
Definition show (st : AppState) (thumbnail : jsstring)
    (realInfo : RealVideoMetadata) : Completion AppState :=
  formats <- updatedFormats realInfo ;;
  Normal
    (setStatus Types.READY
       (setMetadata
          (Some {| Types.title := title realInfo;
                   Types.author := author realInfo;
                   Types.duration := duration realInfo;
                   Types.views := views realInfo;
                   Types.thumbnail := thumbnail;
                   Types.aiSummary := Some (summary realInfo);
                   Types.formats := Some formats |})
          st)).

Definition handleFetch (st : AppState) : FetchRun :=
  if is_empty (url st) || negb (startsWith (trim (url st)) (lit "http"))
  then Refused "Please provide a valid URL starting with http:// or https://"
  else
    let st1 := setThumbnailErrorCount 0 (setStatus Types.FETCHING st) in
    Started st1
      (match getYouTubeID (url st) with
       | Throw err => Some (0%N, Fulfilled (setStatus Types.ERROR st1))
       | Normal videoId =>
           let thumbnail := thumbnailOf videoId in
           async_await
             (fetchRealVideoMetadata JSON_parse generateContent timer_first
                (encode (url st)))
             (fun awaited =>
                Normal (try_catch (realInfo <- awaited ;;
                                   show st1 thumbnail realInfo)
                                  (fun err => setStatus Types.ERROR st1)))
       end).

End Handlers.

(** The image of the preview: its [src], and the count kept in the state. *)
Definition handleThumbnailError (st : AppState) (src : jsstring)
  : Completion (jsstring * AppState) :=
  videoId <- getYouTubeID (url st) ;;
  match videoId with
  | Some ((_ :: _) as id) =>
      if (thumbnailErrorCount st =? 0)%N then
        Normal (lit "https://i.ytimg.com/vi/" ++ id ++ lit "/hqdefault.jpg",
                setThumbnailErrorCount 1 st)
      else if (thumbnailErrorCount st =? 1)%N then
        Normal (lit "https://i.ytimg.com/vi/" ++ id ++ lit "/mqdefault.jpg",
                setThumbnailErrorCount 2 st)
      else
        Normal (lit "https://images.unsplash.com/photo-1594909122845-11baa439b7bf?auto=format&fit=crop&q=80&w=800",
                st)
  | _ => Normal (src, st)
  end.

(** The pattern [/[^a-z0-9]/gi]. *)
Definition unsafe : Re.RegExp :=
  Re.Char (fun u => negb (Re.class_i (Re.range "a" "z" ++ Re.range "0" "9") u)).

(** In [startDownload]:
    [metadata?.title?.replace(/[^a-z0-9]/gi, '_').toLowerCase() || 'visiontube_extract'].
    The chain stops at a null or undefined title; a text has the method;
    on any other value [replace] is undefined and the call throws. *)
Definition safeName (st : AppState) : Completion jsstring :=
  let fallback := lit "visiontube_extract" in
  match metadata st with
  | None => Normal fallback
  | Some md =>
      match Types.title md with
      | JUndefined | JNull => Normal fallback
      | JString s =>
          let name := toLowerCase (Re.replace_all unsafe (lit "_") (units s)) in
          Normal (if is_empty name then fallback else name)
      | JBool _ | JNumber _ | JArray _ | JObject _ => Throw TypeError
      end
  end.

End App.

(** ** Matching, as a relation *)

Module ReSpec.

Import Utf16.
Import Re.
Local Open Scope list_scope.

(** [Matches r i s c i' s' c']: the pattern [r] matches a prefix of [s], the
    text from index [i] on, and leaves [s'], from index [i'] on; the groups
    go from [c] to [c']. *)
Inductive Matches
  : RegExp -> nat -> jsstring -> captures -> nat -> jsstring -> captures -> Prop :=
| M_Char p u s i c :
    p u = true -> Matches (Char p) i (u :: s) c (S i) s c
| M_Bol s c : Matches Bol 0 s c 0 s c
| M_Eol i c : Matches Eol i [] c i [] c
| M_Eps i s c : Matches Eps i s c i s c
| M_Seq a b i s c i1 s1 c1 i2 s2 c2 :
    Matches a i s c i1 s1 c1 -> Matches b i1 s1 c1 i2 s2 c2 ->
    Matches (Seq a b) i s c i2 s2 c2
| M_AltL a b i s c i' s' c' :
    Matches a i s c i' s' c' -> Matches (Alt a b) i s c i' s' c'
| M_AltR a b i s c i' s' c' :
    Matches b i s c i' s' c' -> Matches (Alt a b) i s c i' s' c'
| M_Star p w s i c :
    Forall (fun u => p u = true) w ->
    Matches (StarChar p) i (w ++ s) c (i + length w) s c
| M_OptSome a i s c i' s' c' :
    Matches a i s c i' s' c' -> Matches (Opt a) i s c i' s' c'
| M_OptNone a i s c : Matches (Opt a) i s c i s c
| M_Group n a i s c i' s' c' :
    Matches a i s c i' s' c' ->
    Matches (Group n a) i s c i' s' ((n, firstn (i' - i) s) :: c').

(** The text before the first [?] or [#]. *)
Fixpoint before_separator (s : jsstring) : jsstring :=
  match s with
  | [] => []
  | u :: s' =>
      if none_of ["?"; "#"]%char u then u :: before_separator s' else []
  end.

(** The extensions of the pattern of [isDirectVideoLink]. *)
Definition extensions : list string :=
  ["mp4"; "webm"; "ogg"; "mov"; "m4v"; "m4a"; "mp3"; "avi"; "mkv"; "flv"]%string.

(** A lower-case letter or a digit. *)
Definition lower_alnum (a : ascii) : bool :=
  ((97 <=? code a)%N && (code a <=? 122)%N)
  || ((48 <=? code a)%N && (code a <=? 57)%N).

(** The five marks of the pattern of [getYouTubeID], as texts. *)
Inductive marker : jsstring -> Prop :=
| mark_short (d : N) :
    dot d = true -> marker (lit "youtu" ++ d :: lit "be/")
| mark_v : marker (lit "v/")
| mark_user (w : N) :
    word w = true -> marker (lit "/u/" ++ w :: lit "/")
| mark_embed : marker (lit "embed/")
| mark_watch : marker (lit "watch?").

(** A text that starts with a mark. *)
Definition marked (y : jsstring) : Prop :=
  exists mk y', y = mk ++ y' /\ marker mk.

(** The longest prefix of units that satisfy [p], and what follows it. *)
Fixpoint run (p : N -> bool) (s : jsstring) : jsstring :=
  match s with
  | u :: s' => if p u then u :: run p s' else []
  | [] => []
  end.

Fixpoint after_run (p : N -> bool) (s : jsstring) : jsstring :=
  match s with
  | u :: s' => if p u then after_run p s' else s
  | [] => []
  end.

(** [s] without its first unit when that is the character [a]. *)
Definition strip (a : ascii) (s : jsstring) : jsstring :=
  match s with
  | u :: s' => if chr a u then s' else s
  | [] => []
  end.

(** What group 7 holds when the text after the mark is [t]. *)
Definition after_mark (t : jsstring) : jsstring :=
  run App.id_chars (strip "=" (strip "v" (strip "?" t))).

(** A continuation that never fails. *)
Definition total {R} (k : cont R) : Prop := forall i s c, k i s c <> None.

(** The marks match at the start of [y]. *)
Definition starts_with_mark (y : jsstring) : bool :=
  match m App.marks 0 y [] (fun _ _ _ => Some tt) with
  | Some _ => true
  | None => false
  end.

(** No mark starts anywhere in [s]. *)
Fixpoint no_mark_in (s : jsstring) : bool :=
  match s with
  | [] => true
  | _ :: s' => negb (starts_with_mark s) && no_mark_in s'
  end.

(** Neither [/] nor [?]: no mark is made of such characters alone. *)
Definition plain : N -> bool := none_of ["/"; "?"]%char.

(** A character of an identifier that is not [/] either. *)
Definition id_plain : N -> bool := none_of ["#"; "&"; "?"; "/"]%char.

(** One format, with the size that the mapping [sizes] gives it. *)
Definition sized (sizes : JSValue) (f : Types.VideoFormat) : Types.VideoFormat :=
  {| Types.quality := Types.quality f;
     Types.label := Types.label f;
     Types.size := js_or (size_of sizes (Types.quality f)) (Types.size f);
     Types.ext := Types.ext f |}.

(** A letter or a digit of ASCII. *)
Definition alnum (u : N) : bool :=
  ((97 <=? u)%N && (u <=? 122)%N) || ((65 <=? u)%N && (u <=? 90)%N)
  || ((48 <=? u)%N && (u <=? 57)%N).

(** A character of a file name: a lower-case letter, a digit or [_]. *)
Definition name_char (u : N) : bool :=
  ((97 <=? u)%N && (u <=? 122)%N) || ((48 <=? u)%N && (u <=? 57)%N)
  || (u =? 95)%N.

(** A letter in lower case, a digit as it is, [_] for anything else. *)
Definition sanitize (u : N) : N :=
  if alnum u then (if (65 <=? u)%N && (u <=? 90)%N then u + 32 else u)%N
  else 95%N.

(** The image's [src] and the state after [n] failures to load it in a
    row. *)
Fixpoint thumbnail_errors (n : nat) (st : App.AppState) (src : jsstring)
  : Completion (jsstring * App.AppState) :=
  match n with
  | O => Normal (src, st)
  | S k =>
      r <- thumbnail_errors k st src ;;
      App.handleThumbnailError (snd r) (fst r)
  end.

(** What [\??v?=?] can match. *)
Definition glue : list jsstring :=
  List.map lit [EmptyString; "?"; "v"; "="; "?v"; "?="; "v="; "?v="]%string.

(** A JSON value that is neither an object nor null. *)
Definition not_an_object (data : JSValue) : bool :=
  match data with
  | JBool _ | JNumber _ | JString _ | JArray _ => true
  | JUndefined | JNull | JObject _ => false
  end.

End ReSpec.

(** * Properties *)

(** ** Substring search *)

Lemma prefix_app (p rest : string) : prefix p (p ++ rest) = true.
Proof.
  induction p as [|c p IH]; simpl.
  - destruct rest; reflexivity.
  - destruct (ascii_dec c c) as [_|ne]; [exact IH | contradiction].
Qed.

Lemma prefix_split (p s : string) :
  prefix p s = true -> exists rest, s = p ++ rest.
Proof.
  revert s; induction p as [|c p IH]; intros s H.
  - exists s; reflexivity.
  - destruct s as [|d s]; simpl in H; [discriminate|].
    destruct (ascii_dec c d) as [->|_]; [|discriminate].
    destruct (IH s H) as [rest ->].
    exists rest; reflexivity.
Qed.

Lemma includes_unfold (s pat : string) :
  Str.includes s pat =
  if prefix pat s then true
  else match s with
       | EmptyString => false
       | String _ s' => Str.includes s' pat
       end.
Proof. destruct s; reflexivity. Qed.

Lemma includes_occurs (s pat : string) :
  Str.includes s pat = true -> Str.occurs_in pat s.
Proof.
  induction s as [|c s IH]; rewrite includes_unfold; intros H.
  - destruct (prefix pat EmptyString) eqn:E; [|discriminate].
    destruct (prefix_split _ _ E) as [rest ->].
    exists EmptyString, rest; reflexivity.
  - destruct (prefix pat (String c s)) eqn:E.
    + destruct (prefix_split _ _ E) as [rest Hs].
      exists EmptyString, rest; exact Hs.
    + destruct (IH H) as (before & after & ->).
      exists (String c before), after; reflexivity.
Qed.

Lemma occurs_includes (s pat : string) :
  Str.occurs_in pat s -> Str.includes s pat = true.
Proof.
  intros (before & after & ->).
  induction before as [|c before IH].
  - change (EmptyString ++ pat ++ after) with (pat ++ after).
    rewrite includes_unfold, prefix_app; reflexivity.
  - change (String c before ++ pat ++ after)
      with (String c (before ++ pat ++ after)).
    rewrite includes_unfold, IH.
    destruct (prefix pat (String c (before ++ pat ++ after))); reflexivity.
Qed.

Lemma includes_spec (s pat : string) :
  Str.includes s pat = true <-> Str.occurs_in pat s.
Proof. split; [apply includes_occurs | apply occurs_includes]. Qed.

Lemma not_includes_spec (s pat : string) :
  Str.includes s pat = false <-> ~ Str.occurs_in pat s.
Proof.
  rewrite <- includes_spec.
  destruct (Str.includes s pat); split; intro H;
    reflexivity || discriminate || congruence.
Qed.

(** ** The fallback synthesizer *)

Lemma isYoutube_spec (url : string) : isYoutube url = true <-> on_primary url.
Proof.
  unfold isYoutube, on_primary.
  rewrite orb_true_iff, !includes_spec; reflexivity.
Qed.

Lemma isYoutube_false (url : string) : isYoutube url = false <-> ~ on_primary url.
Proof.
  rewrite <- isYoutube_spec.
  destruct (isYoutube url); split; intro H;
    reflexivity || discriminate || congruence.
Qed.

Lemma isVimeo_spec (url : string) : isVimeo url = true <-> on_secondary url.
Proof. apply includes_spec. Qed.

Lemma isVimeo_false (url : string) : isVimeo url = false <-> ~ on_secondary url.
Proof. apply not_includes_spec. Qed.

Lemma classified_fun (url : string) (p q : Platform) :
  classified url p -> classified url q -> p = q.
Proof. intros [] []; try reflexivity; contradiction. Qed.

Lemma fallback_author (url : string) :
  exists p, classified url p /\
            author (getFallbackMetadata url) = JString (placeholder p).
Proof.
  unfold getFallbackMetadata; simpl.
  destruct (isYoutube url) eqn:Y.
  - exists Primary; split; [|reflexivity].
    apply is_primary, isYoutube_spec, Y.
  - apply isYoutube_false in Y.
    destruct (isVimeo url) eqn:V.
    + exists Secondary; split; [|reflexivity].
      apply is_secondary; [exact Y | apply isVimeo_spec, V].
    + exists Generic; split; [|reflexivity].
      apply is_generic; [exact Y | apply isVimeo_false, V].
Qed.

(** C7: for every URL the fallback synthesizer returns the fixed title,
    views, duration and size table, and the author placeholder of the URL's
    class in the three-way classification by substring (primary pattern,
    else secondary pattern, else generic); a youtube.com watch URL is in the
    primary class, a vimeo.com URL in the secondary, an unrelated URL in the
    generic one. *)
Theorem fallback_synthesizer_output (url : string) :
  let m := getFallbackMetadata url in
  title m = JString "High-Definition Media Stream"
  /\ views m = JString "Live Stream"
  /\ duration m = JString "Detected"
  /\ estimatedSizes m =
       JObject [("2160p", JString "1.4 GB"); ("1080p", JString "450 MB");
                ("720p", JString "210 MB"); ("360p", JString "65 MB");
                ("audio", JString "8.5 MB")]
  /\ (exists p, classified url p /\ author m = JString (placeholder p))
  /\ author (getFallbackMetadata "https://www.youtube.com/watch?v=x")
       = JString (placeholder Primary)
  /\ author (getFallbackMetadata "https://vimeo.com/123")
       = JString (placeholder Secondary)
  /\ author (getFallbackMetadata "https://example.com/v.mp4")
       = JString (placeholder Generic).
Proof.
  cbv zeta.
  repeat split; try reflexivity.
  apply fallback_author.
Qed.

(** C10: the primary-platform check takes precedence: a URL that contains
    "youtube.com" or "youtu.be" and also contains "vimeo.com" gets the
    author "YouTube Creator". *)
Theorem primary_takes_precedence (url : string) :
  Str.occurs_in "youtube.com" url \/ Str.occurs_in "youtu.be" url ->
  Str.occurs_in "vimeo.com" url ->
  author (getFallbackMetadata url) = JString "YouTube Creator".
Proof.
  intros Hp _.
  unfold getFallbackMetadata; simpl.
  apply isYoutube_spec in Hp; rewrite Hp; reflexivity.
Qed.

Lemma primary_takes_precedence_witness :
  author (getFallbackMetadata "https://youtu.be/redirect?to=https://vimeo.com/123")
  = JString "YouTube Creator".
Proof.
  apply primary_takes_precedence.
  - right. exists "https://", "/redirect?to=https://vimeo.com/123". reflexivity.
  - exists "https://youtu.be/redirect?to=https://", "/123". reflexivity.
Defined.

(** ** The reference parser on known texts *)

Example parse_empty_object : JSON.parse "{}" = Normal (JObject []).
Proof. reflexivity. Qed.

Example parse_nested :
  JSON.parse (Str.js " { 'a' : [ true , false , null , { } ] , 'b' : 'c' } ")
  = Normal (JObject [("a", JArray [JBool true; JBool false; JNull; JObject []]);
                     ("b", JString "c")]).
Proof. vm_compute. reflexivity. Qed.

Example parse_duplicate_member :
  JSON.parse (Str.js "{'k': 'first', 'l': 'other', 'k': 'last'}")
  = Normal (JObject [("k", JString "last"); ("l", JString "other")]).
Proof. vm_compute. reflexivity. Qed.

(** [0.1] is 0x3FB999999999999A; [9007199254740993] is a tie and rounds to
    2^53; [5e-324] is the least subnormal; [1e400] overflows. *)
Example parse_numbers :
  JSON.parse "[0.1, 9007199254740993, 5e-324, 1e400, -0, 0e7, 1e-400, 42]"
  = Normal (JArray [JNumber (S754_finite false 7205759403792794 (-56));
                    JNumber (S754_finite false 4503599627370496 1);
                    JNumber (S754_finite false 1 (-1074));
                    JNumber (S754_infinity false);
                    JNumber (S754_zero true);
                    JNumber (S754_zero false);
                    JNumber (S754_zero false);
                    JNumber (S754_finite false 5910974510923776 (-47))]).
Proof. vm_compute. reflexivity. Qed.

Example parse_escapes :
  JSON.parse (Str.js "'\u0041\u00e9\uD83D\uDE00\n'")
  = Normal (JString (JSON.utf8 65 ++ JSON.utf8 233 ++ JSON.utf8 128512
                     ++ String "010"%char EmptyString)).
Proof. vm_compute. reflexivity. Qed.

Example parse_rejects :
  List.map JSON.parse
    [EmptyString; "01"; "1."; "-"; "nul"; "[1,]"; Str.js "{'a':1,}";
     Str.js "{'a' 1}"; Str.js "'open"; "{} {}"; "undefined"; "[[[["]
  = List.repeat (Throw SyntaxError) 12.
Proof. vm_compute. reflexivity. Qed.

Example falsy_values :
  List.map (fun text => match JSON.parse text with
                        | Normal v => ToBoolean v
                        | Throw _ => true
                        end)
    ["null"; "false"; "0"; "-0"; "0.0"; "1e-400"; Str.js "''"]
  = List.repeat false 7.
Proof. vm_compute. reflexivity. Qed.

Example truthy_values :
  List.map (fun text => match JSON.parse text with
                        | Normal v => ToBoolean v
                        | Throw _ => false
                        end)
    ["true"; "42"; "-0.5"; "1e400"; Str.js "'0'"; Str.js "' '"; "[]"; "{}"]
  = List.repeat true 8.
Proof. vm_compute. reflexivity. Qed.

(** ** Truthiness *)

Lemma truthy_populated (v : JSValue) : ToBoolean v = true -> populated v.
Proof. intros H; split; intros ->; discriminate. Qed.

Lemma truthy_string_nonempty (v : JSValue) (s : string) :
  ToBoolean v = true -> v = JString s -> s <> EmptyString.
Proof. intros H -> ->; discriminate. Qed.

Lemma js_or_truthy (a b : JSValue) :
  ToBoolean b = true -> ToBoolean (js_or a b) = true.
Proof. unfold js_or; destruct (ToBoolean a) eqn:E; auto. Qed.

Lemma js_or_left (a b : JSValue) : ToBoolean a = true -> js_or a b = a.
Proof. unfold js_or; intros ->; reflexivity. Qed.

Lemma js_or_right (a b : JSValue) : ToBoolean a = false -> js_or a b = b.
Proof. unfold js_or; intros ->; reflexivity. Qed.

Lemma default_truthy (f : Field) : ToBoolean (default_of f) = true.
Proof. destruct f; reflexivity. Qed.

Lemma fallback_truthy (url : string) (f : Field) :
  ToBoolean (field f (getFallbackMetadata url)) = true.
Proof.
  destruct f; try reflexivity.
  simpl. destruct (isYoutube url); [|destruct (isVimeo url)]; reflexivity.
Qed.

Lemma fallback_sizes_eq (url : string) :
  estimatedSizes (getFallbackMetadata url) = fallback_sizes.
Proof. reflexivity. Qed.

Lemma fallback_well_shaped (url : string) :
  well_shaped (getFallbackMetadata url) = true.
Proof.
  unfold well_shaped; simpl.
  destruct (isYoutube url); [|destruct (isVimeo url)]; reflexivity.
Qed.

(** ** Reading the payload *)

Lemma Get_total (data : JSValue) (f : Field) :
  data <> JNull -> data <> JUndefined -> exists v, Get data f = Normal v.
Proof.
  intros Hn Hu; destruct data; simpl; try contradiction; eauto.
Qed.

Lemma Get_object (props : list (string * JSValue)) (f : Field) (v : JSValue) :
  assoc (field_name f) props = Some v -> Get (JObject props) f = Normal v.
Proof. simpl; intros ->; reflexivity. Qed.

Lemma Get_absent (props : list (string * JSValue)) (f : Field) :
  assoc (field_name f) props = None -> Get (JObject props) f = Normal JUndefined.
Proof. simpl; intros ->; reflexivity. Qed.

Section Normalize.

Variable JSON_parse : string -> Completion JSValue.

(** Once the text parses to a value that is neither null nor undefined,
    the [try] block completes, each field being the payload's or its
    default. *)
Lemma normalize_fields (url : string) (r : GenerateContentResponse)
    (data : JSValue) :
  JSON_parse (text_or_empty_object r) = Normal data ->
  data <> JNull -> data <> JUndefined ->
  exists m, normalize JSON_parse url r = Normal m /\
    forall f, exists v, Get data f = Normal v /\
                        field f m = js_or v (default_of f).
Proof.
  intros Hp Hn Hu. unfold normalize. rewrite Hp. simpl.
  destruct data; try contradiction; simpl;
    (eexists; split; [reflexivity|]; intros []; simpl; eauto).
Qed.

Lemma normalize_throws_syntax (url : string) (r : GenerateContentResponse)
    (e : JSError) :
  JSON_parse (text_or_empty_object r) = Throw e ->
  normalize JSON_parse url r = Throw e.
Proof. intros Hp. unfold normalize. rewrite Hp. reflexivity. Qed.

Lemma normalize_throws_null (url : string) (r : GenerateContentResponse) :
  JSON_parse (text_or_empty_object r) = Normal JNull ->
  normalize JSON_parse url r = Throw TypeError.
Proof. intros Hp. unfold normalize. rewrite Hp. reflexivity. Qed.

(** Whatever the [try] block returns has truthy fields. *)
Lemma normalize_truthy (url : string) (r : GenerateContentResponse)
    (m : RealVideoMetadata) :
  normalize JSON_parse url r = Normal m ->
  forall f, ToBoolean (field f m) = true.
Proof.
  unfold normalize.
  destruct (JSON_parse (text_or_empty_object r)) as [data|e]; simpl;
    [|discriminate].
  destruct data; simpl; try discriminate;
    intros H; injection H as <-; intros []; simpl;
    first [reflexivity | apply js_or_truthy; reflexivity].
Qed.

(** The size mapping the [try] block returns is the table or the
    payload's own. *)
Lemma normalize_sizes (url : string) (r : GenerateContentResponse)
    (m : RealVideoMetadata) :
  normalize JSON_parse url r = Normal m ->
  estimatedSizes m = fallback_sizes \/
  exists data, JSON_parse (text_or_empty_object r) = Normal data /\
               Get data f_estimatedSizes = Normal (estimatedSizes m).
Proof.
  unfold normalize.
  destruct (JSON_parse (text_or_empty_object r)) as [data|e] eqn:Hp; simpl;
    [|discriminate].
  destruct (Get data f_estimatedSizes) as [v|e] eqn:Hg.
  - destruct data; simpl in *; try discriminate;
      intros H; injection H as <-; simpl;
      (injection Hg as Hg;
       unfold js_or; destruct (ToBoolean _) eqn:T;
       [right; eexists; split; [reflexivity|]; simpl; rewrite Hg; reflexivity
       | left; reflexivity]).
  - destruct data; simpl in *; discriminate.
Qed.

End Normalize.

(** ** The race *)

Section Race.

Variable JSON_parse : string -> Completion JSValue.
Variable generateContent : Service.
Variable timer_first : bool.

Lemma fetchPromise_never_rejects (url : string) :
  fetchPromise JSON_parse generateContent url = None \/
  exists t m, fetchPromise JSON_parse generateContent url
              = Some (t, Fulfilled m).
Proof.
  unfold fetchPromise, async_await.
  destruct (generateContent (request url)) as [[t s]|]; [right|left].
  - eexists _, _; reflexivity.
  - reflexivity.
Qed.

Lemma resolve_never (url : string) :
  generateContent (request url) = None ->
  fetchRealVideoMetadata JSON_parse generateContent timer_first url
  = Some (TIMEOUT_MS, Fulfilled (getFallbackMetadata url)).
Proof.
  intros Hg. unfold fetchRealVideoMetadata, fetchPromise.
  rewrite Hg. reflexivity.
Qed.

Lemma resolve_early (url : string) (t : N)
    (s : Settlement GenerateContentResponse) :
  generateContent (request url) = Some (t, s) ->
  (t < TIMEOUT_MS)%N ->
  fetchRealVideoMetadata JSON_parse generateContent timer_first url
  = Some (t, Fulfilled (query_value JSON_parse url s)).
Proof.
  intros Hg Hlt. unfold fetchRealVideoMetadata, fetchPromise.
  rewrite Hg. unfold async_await at 2. unfold timeoutPromise, reject_after.
  unfold Promise_race. apply N.ltb_lt in Hlt. rewrite Hlt. reflexivity.
Qed.

Lemma resolve_late (url : string) (t : N)
    (s : Settlement GenerateContentResponse) :
  generateContent (request url) = Some (t, s) ->
  (TIMEOUT_MS < t)%N ->
  fetchRealVideoMetadata JSON_parse generateContent timer_first url
  = Some (TIMEOUT_MS, Fulfilled (getFallbackMetadata url)).
Proof.
  intros Hg Hlt. unfold fetchRealVideoMetadata, fetchPromise.
  rewrite Hg. unfold async_await at 2. unfold timeoutPromise, reject_after.
  unfold Promise_race.
  assert (Hge : (t <? TIMEOUT_MS)%N = false) by (apply N.ltb_ge; lia).
  apply N.ltb_lt in Hlt. rewrite Hge, Hlt. reflexivity.
Qed.

Lemma resolve_tie (url : string)
    (s : Settlement GenerateContentResponse) :
  generateContent (request url) = Some (TIMEOUT_MS, s) ->
  fetchRealVideoMetadata JSON_parse generateContent timer_first url =
  Some (TIMEOUT_MS,
        Fulfilled (if timer_first then getFallbackMetadata url
                   else query_value JSON_parse url s)).
Proof.
  intros Hg. unfold fetchRealVideoMetadata, fetchPromise.
  rewrite Hg. unfold async_await at 2. unfold timeoutPromise, reject_after.
  unfold Promise_race. rewrite N.ltb_irrefl.
  destruct timer_first; reflexivity.
Qed.

(** The value of the query is the fallback or a completed [try] block. *)
Lemma query_value_cases (url : string)
    (s : Settlement GenerateContentResponse) :
  query_value JSON_parse url s = getFallbackMetadata url \/
  exists r, s = Fulfilled r /\
            normalize JSON_parse url r = Normal (query_value JSON_parse url s).
Proof.
  unfold query_value. destruct s as [r|e]; simpl.
  - destruct (normalize JSON_parse url r) as [m|e] eqn:Hn; simpl.
    + right. exists r. split; [reflexivity | exact Hn].
    + left. reflexivity.
  - left. reflexivity.
Qed.

(** The resolver always fulfils, by the deadline, with the fallback or
    with what the [try] block made of the response. *)
Lemma resolve_cases (url : string) :
  exists t m,
    fetchRealVideoMetadata JSON_parse generateContent timer_first url
    = Some (t, Fulfilled m) /\ (t <= TIMEOUT_MS)%N /\
    (m = getFallbackMetadata url \/
     exists r, generateContent (request url) = Some (t, Fulfilled r) /\
               normalize JSON_parse url r = Normal m).
Proof.
  destruct (generateContent (request url)) as [[t s]|] eqn:Hg.
  - destruct (N.lt_trichotomy t TIMEOUT_MS) as [Hlt|[->|Hgt]].
    + exists t, (query_value JSON_parse url s).
      split; [apply resolve_early; assumption|].
      split; [lia|].
      destruct (query_value_cases url s) as [Hq|(r & -> & Hq)];
        [left; exact Hq | right; exists r; split; [reflexivity | exact Hq]].
    + exists TIMEOUT_MS,
        (if timer_first then getFallbackMetadata url
         else query_value JSON_parse url s).
      split; [apply resolve_tie; assumption|].
      split; [lia|].
      destruct timer_first; [left; reflexivity|].
      destruct (query_value_cases url s) as [Hq|(r & -> & Hq)];
        [left; exact Hq | right; exists r; split; [reflexivity | exact Hq]].
    + exists TIMEOUT_MS, (getFallbackMetadata url).
      split; [eapply resolve_late; eassumption|].
      split; [lia | left; reflexivity].
  - exists TIMEOUT_MS, (getFallbackMetadata url).
    split; [apply resolve_never; assumption|].
    split; [lia | left; reflexivity].
Qed.

End Race.

(** ** The resolver *)

(** C1: for every URL and every behaviour of the service (it fulfils,
    rejects, sends a malformed payload or never settles) the resolver's
    promise is fulfilled, never rejected and never pending for ever, with a
    result none of whose fields is undefined or null. *)
Theorem resolver_total_and_populated
    (JSON_parse : string -> Completion JSValue) (generateContent : Service)
    (timer_first : bool) (url : string) :
  exists t m,
    fetchRealVideoMetadata JSON_parse generateContent timer_first url
    = Some (t, Fulfilled m)
    /\ (t <= TIMEOUT_MS)%N
    /\ forall f, populated (field f m).
Proof.
  destruct (resolve_cases JSON_parse generateContent timer_first url)
    as (t & m & Hr & Ht & Hm).
  exists t, m. split; [exact Hr|]. split; [exact Ht|].
  intros f. apply truthy_populated.
  destruct Hm as [->|(r & _ & Hn)].
  - apply fallback_truthy.
  - eapply normalize_truthy; eassumption.
Qed.

(** C5: when the query never settles, the resolver fulfils with exactly the
    fallback synthesizer's output for the URL, at the 25,000 ms deadline:
    not before it and not after it. *)
Theorem unsettled_query_times_out
    (JSON_parse : string -> Completion JSValue) (generateContent : Service)
    (timer_first : bool) (url : string) :
  generateContent (request url) = None ->
  fetchRealVideoMetadata JSON_parse generateContent timer_first url
  = Some (25000%N, Fulfilled (getFallbackMetadata url)).
Proof. intros Hg. apply resolve_never, Hg. Qed.

Lemma unsettled_query_times_out_witness :
  fetchRealVideoMetadata JSON.parse never_settles true a_url
  = Some (25000%N, Fulfilled (getFallbackMetadata a_url)).
Proof.
  apply (unsettled_query_times_out JSON.parse never_settles true a_url).
  reflexivity.
Defined.

(** C6: when the query settles before the timer with a failure (the service
    rejects, or its text is not JSON, or is the JSON null), the resolver
    fulfils at that instant, without waiting for the deadline, with the
    fallback synthesizer's output; it does not reject. *)
Theorem failed_query_falls_back
    (JSON_parse : string -> Completion JSValue) (generateContent : Service)
    (timer_first : bool) (url : string) (t : N)
    (s : Settlement GenerateContentResponse) :
  generateContent (request url) = Some (t, s) ->
  (t < TIMEOUT_MS)%N ->
  query_fails JSON_parse s ->
  fetchRealVideoMetadata JSON_parse generateContent timer_first url
  = Some (t, Fulfilled (getFallbackMetadata url)).
Proof.
  intros Hg Hlt Hf.
  rewrite (resolve_early JSON_parse generateContent timer_first url t s Hg Hlt).
  do 2 f_equal. unfold query_value.
  destruct Hf as [e|r e Hp|r Hp]; simpl.
  - reflexivity.
  - rewrite (normalize_throws_syntax JSON_parse url r e Hp). reflexivity.
  - rewrite (normalize_throws_null JSON_parse url r Hp). reflexivity.
Qed.

Lemma failed_query_falls_back_witness :
  fetchRealVideoMetadata JSON.parse (rejects_at 0 "503 Service Unavailable")
    true a_url
  = Some (0%N, Fulfilled (getFallbackMetadata a_url))
  /\ fetchRealVideoMetadata JSON.parse (responds_at 1200 (Some "Sorry, I cannot"))
       true a_url
     = Some (1200%N, Fulfilled (getFallbackMetadata a_url)).
Proof.
  split.
  - apply (failed_query_falls_back JSON.parse
             (rejects_at 0 "503 Service Unavailable") true a_url 0
             (Rejected (Error "503 Service Unavailable"))).
    + reflexivity.
    + reflexivity.
    + apply service_rejects.
  - apply (failed_query_falls_back JSON.parse
             (responds_at 1200 (Some "Sorry, I cannot")) true a_url 1200
             (Fulfilled {| text := Some "Sorry, I cannot" |})).
    + reflexivity.
    + reflexivity.
    + apply (malformed_json JSON.parse _ SyntaxError). reflexivity.
Defined.

(** C9: when the query succeeds before the timer with a text that is
    undefined or empty, the text is read as the empty JSON object and the
    result is made of the per-field defaults with the fallback size table;
    it is not the fallback synthesizer's output, whose title differs. *)
Theorem empty_text_gives_defaults
    (JSON_parse : string -> Completion JSValue) (generateContent : Service)
    (timer_first : bool) (url : string) (t : N)
    (r : GenerateContentResponse) :
  JSON_parse "{}" = Normal (JObject []) ->
  generateContent (request url) = Some (t, Fulfilled r) ->
  (t < TIMEOUT_MS)%N ->
  text r = None \/ text r = Some EmptyString ->
  fetchRealVideoMetadata JSON_parse generateContent timer_first url
  = Some (t, Fulfilled
               {| title := JString "Found Media Content";
                  author := JString "Source Verified";
                  views := JString "N/A";
                  duration := JString "00:00";
                  summary := JString "Media analysis complete.";
                  estimatedSizes := fallback_sizes |})
  /\ title (getFallbackMetadata url) = JString "High-Definition Media Stream"
  /\ {| title := JString "Found Media Content";
        author := JString "Source Verified";
        views := JString "N/A";
        duration := JString "00:00";
        summary := JString "Media analysis complete.";
        estimatedSizes := fallback_sizes |} <> getFallbackMetadata url.
Proof.
  intros Hp Hg Hlt Ht.
  split; [|split; [reflexivity | intros H; discriminate (f_equal title H)]].
  rewrite (resolve_early JSON_parse generateContent timer_first url t _ Hg Hlt).
  do 2 f_equal. unfold query_value, normalize; simpl.
  assert (Htxt : text_or_empty_object r = "{}")
    by (unfold text_or_empty_object; destruct Ht as [->| ->]; reflexivity).
  rewrite Htxt, Hp. reflexivity.
Qed.

Lemma empty_text_gives_defaults_witness :
  fetchRealVideoMetadata JSON.parse (responds_at 300 None) true a_url
  = Some (300%N, Fulfilled all_defaults)
  /\ fetchRealVideoMetadata JSON.parse (responds_at 300 (Some EmptyString))
       true a_url
     = Some (300%N, Fulfilled all_defaults).
Proof.
  split.
  - apply (empty_text_gives_defaults JSON.parse (responds_at 300 None) true
             a_url 300 {| text := None |}).
    + reflexivity.
    + reflexivity.
    + reflexivity.
    + left; reflexivity.
  - apply (empty_text_gives_defaults JSON.parse
             (responds_at 300 (Some EmptyString)) true
             a_url 300 {| text := Some EmptyString |}).
    + reflexivity.
    + reflexivity.
    + reflexivity.
    + right; reflexivity.
Defined.

(** C8: when the query succeeds before the timer with a payload whose six
    fields are all there, the five texts non-empty strings and the size
    mapping an object binding the five quality keys to non-empty strings,
    the result holds exactly those values. *)
Theorem full_payload_returned_verbatim
    (JSON_parse : string -> Completion JSValue) (generateContent : Service)
    (timer_first : bool) (url : string) (t : N)
    (r : GenerateContentResponse) (props sizes : list (string * JSValue))
    (the_title the_author the_views the_duration the_summary : string) :
  generateContent (request url) = Some (t, Fulfilled r) ->
  (t < TIMEOUT_MS)%N ->
  JSON_parse (text_or_empty_object r) = Normal (JObject props) ->
  assoc "title" props = Some (JString the_title) ->
  assoc "author" props = Some (JString the_author) ->
  assoc "views" props = Some (JString the_views) ->
  assoc "duration" props = Some (JString the_duration) ->
  assoc "summary" props = Some (JString the_summary) ->
  assoc "estimatedSizes" props = Some (JObject sizes) ->
  Forall (fun s => s <> EmptyString)
         [the_title; the_author; the_views; the_duration; the_summary] ->
  Forall (fun k => exists v, assoc k sizes = Some (JString v)
                             /\ v <> EmptyString) quality_keys ->
  fetchRealVideoMetadata JSON_parse generateContent timer_first url
  = Some (t, Fulfilled {| title := JString the_title;
                          author := JString the_author;
                          views := JString the_views;
                          duration := JString the_duration;
                          summary := JString the_summary;
                          estimatedSizes := JObject sizes |}).
Proof.
  intros Hg Hlt Hp Ht Ha Hv Hd Hs Hz Hne _.
  rewrite (resolve_early JSON_parse generateContent timer_first url t _ Hg Hlt).
  do 2 f_equal. unfold query_value, normalize; simpl.
  rewrite Hp; simpl. rewrite Ht, Ha, Hv, Hd, Hs, Hz; simpl.
  repeat match goal with
         | H : Forall _ (_ :: _) |- _ => inversion H; subst; clear H
         end.
  destruct the_title, the_author, the_views, the_duration, the_summary;
    try contradiction; reflexivity.
Qed.

Lemma full_payload_returned_verbatim_witness :
  fetchRealVideoMetadata JSON.parse (responds_at 1200 (Some full_payload))
    true a_url
  = Some (1200%N,
          Fulfilled
            {| title := JString "Big Buck Bunny";
               author := JString "Blender";
               views := JString "1,204,551";
               duration := JString "9:56";
               summary := JString "A short film. It is open.";
               estimatedSizes :=
                 JObject [("2160p", JString "1.1 GB");
                          ("1080p", JString "150MB");
                          ("720p", JString "90 MB");
                          ("360p", JString "30 MB");
                          ("audio", JString "9 MB")] |}).
Proof.
  apply (full_payload_returned_verbatim JSON.parse
           (responds_at 1200 (Some full_payload)) true a_url 1200
           {| text := Some full_payload |}
           [("title", JString "Big Buck Bunny");
            ("author", JString "Blender");
            ("views", JString "1,204,551");
            ("duration", JString "9:56");
            ("summary", JString "A short film. It is open.");
            ("estimatedSizes",
             JObject [("2160p", JString "1.1 GB");
                      ("1080p", JString "150MB");
                      ("720p", JString "90 MB");
                      ("360p", JString "30 MB");
                      ("audio", JString "9 MB")])]).
  - reflexivity.
  - reflexivity.
  - vm_compute. reflexivity.
  - reflexivity.
  - reflexivity.
  - reflexivity.
  - reflexivity.
  - reflexivity.
  - reflexivity.
  - repeat constructor; discriminate.
  - repeat constructor;
      (eexists; split; [reflexivity | discriminate]).
Defined.

(** C4, as the code has it: when the query succeeds before the timer with a
    payload that is not null, each field that is absent or falsy in the
    payload (undefined, null, false, 0, the empty string) is replaced by its
    documented default, the size mapping by the fallback table; a field
    whose value is truthy is returned as it is, whatever its type. *)
Theorem falsy_fields_take_defaults
    (JSON_parse : string -> Completion JSValue) (generateContent : Service)
    (timer_first : bool) (url : string) (t : N)
    (r : GenerateContentResponse) (data : JSValue) :
  generateContent (request url) = Some (t, Fulfilled r) ->
  (t < TIMEOUT_MS)%N ->
  JSON_parse (text_or_empty_object r) = Normal data ->
  data <> JNull -> data <> JUndefined ->
  exists m,
    fetchRealVideoMetadata JSON_parse generateContent timer_first url
    = Some (t, Fulfilled m)
    /\ forall f, exists v,
         Get data f = Normal v
         /\ field f m = if ToBoolean v then v else default_of f.
Proof.
  intros Hg Hlt Hp Hn Hu.
  destruct (normalize_fields JSON_parse url r data Hp Hn Hu) as (m & Hm & Hf).
  exists m. split; [|exact Hf].
  rewrite (resolve_early JSON_parse generateContent timer_first url t _ Hg Hlt).
  do 2 f_equal. unfold query_value; simpl. rewrite Hm. reflexivity.
Qed.

Lemma falsy_fields_take_defaults_witness :
  exists m,
    fetchRealVideoMetadata JSON.parse (responds_at 1200 (Some partial_payload))
      true a_url
    = Some (1200%N, Fulfilled m)
    /\ forall f, exists v,
         Get (JObject
                [("title", JString "Big Buck Bunny");
                 ("views", JString "1,204,551");
                 ("duration", JString "9:56");
                 ("summary", JString "A short film. It is open.");
                 ("estimatedSizes",
                  JObject [("1080p", JString "150MB");
                           ("720p", JString "90 MB");
                           ("360p", JString "30 MB")])]) f = Normal v
         /\ field f m = if ToBoolean v then v else default_of f.
Proof.
  apply (falsy_fields_take_defaults JSON.parse
           (responds_at 1200 (Some partial_payload)) true a_url 1200
           {| text := Some partial_payload |}).
  - reflexivity.
  - reflexivity.
  - vm_compute. reflexivity.
  - discriminate.
  - discriminate.
Defined.

(** C4 as stated fails: a field that is malformed but truthy is kept.  With
    a numeric title and a size mapping that is a string, the result's title
    is the number 42, not "Found Media Content", and its size mapping the
    string "unknown", not the fallback table. *)
Lemma malformed_truthy_fields_are_kept :
  (exists m,
     fetchRealVideoMetadata JSON.parse
       (responds_at 1200 (Some ill_typed_payload)) true a_url
     = Some (1200%N, Fulfilled m)
     /\ title m = JNumber (JSON.decimal_to_number false 42 0)
     /\ title m <> JString "Found Media Content"
     /\ estimatedSizes m = JString "unknown"
     /\ estimatedSizes m <> fallback_sizes)
  /\ ~ malformed_fields_replaced.
Proof.
  assert (Hp : JSON.parse (text_or_empty_object
                            {| text := Some ill_typed_payload |})
               = Normal (JObject
                           [("title", JNumber (JSON.decimal_to_number false 42 0));
                            ("author", JString "Blender");
                            ("views", JString "1,204,551");
                            ("duration", JString "9:56");
                            ("summary", JString "A short film. It is open.");
                            ("estimatedSizes", JString "unknown")]))
    by (vm_compute; reflexivity).
  assert (Hr : fetchRealVideoMetadata JSON.parse
                 (responds_at 1200 (Some ill_typed_payload)) true a_url
               = Some (1200%N, Fulfilled
                    {| title := JNumber (JSON.decimal_to_number false 42 0);
                       author := JString "Blender";
                       views := JString "1,204,551";
                       duration := JString "9:56";
                       summary := JString "A short film. It is open.";
                       estimatedSizes := JString "unknown" |}))
    by (vm_compute; reflexivity).
  split.
  - eexists. split; [exact Hr|].
    simpl. repeat split; discriminate || reflexivity.
  - intros H.
    destruct (H JSON.parse (responds_at 1200 (Some ill_typed_payload)) true
                a_url 1200%N {| text := Some ill_typed_payload |} _
                eq_refl eq_refl Hp) as (m & Hm & Hf); try discriminate.
    rewrite Hr in Hm. injection Hm as <-.
    destruct (Hf f_estimatedSizes) as (v & Hv & Hfm).
    simpl in Hv. injection Hv as <-. discriminate Hfm.
Qed.

(** C2, as the code has it: when the query succeeds before the timer with a
    payload whose size mapping is an object, the result's size mapping is
    that object as it is: the provided values verbatim, a quality key the
    payload lacks still lacking.  A missing author is "Source Verified". *)
Theorem provided_sizes_kept_whole
    (JSON_parse : string -> Completion JSValue) (generateContent : Service)
    (timer_first : bool) (url : string) (t : N)
    (r : GenerateContentResponse) (props provided : list (string * JSValue)) :
  generateContent (request url) = Some (t, Fulfilled r) ->
  (t < TIMEOUT_MS)%N ->
  JSON_parse (text_or_empty_object r) = Normal (JObject props) ->
  assoc "estimatedSizes" props = Some (JObject provided) ->
  exists m,
    fetchRealVideoMetadata JSON_parse generateContent timer_first url
    = Some (t, Fulfilled m)
    /\ estimatedSizes m = JObject provided
    /\ (forall k, assoc k provided = None ->
                  binds_quality (estimatedSizes m) k = false)
    /\ (assoc "author" props = None -> author m = JString "Source Verified").
Proof.
  intros Hg Hlt Hp Hz.
  assert (Hn : JObject props <> JNull) by discriminate.
  assert (Hu : JObject props <> JUndefined) by discriminate.
  destruct (normalize_fields JSON_parse url r _ Hp Hn Hu) as (m & Hm & Hf).
  exists m. split.
  - rewrite (resolve_early JSON_parse generateContent timer_first url t _ Hg Hlt).
    do 2 f_equal. unfold query_value; simpl. rewrite Hm. reflexivity.
  - assert (Hsizes : estimatedSizes m = JObject provided).
    { destruct (Hf f_estimatedSizes) as (v & Hv & Hfm).
      rewrite (Get_object props f_estimatedSizes _ Hz) in Hv.
      injection Hv as <-. exact Hfm. }
    split; [exact Hsizes|]. split.
    + intros k Hk. rewrite Hsizes. unfold binds_quality, size_of.
      rewrite Hk. reflexivity.
    + intros Ha. destruct (Hf f_author) as (v & Hv & Hfm).
      rewrite (Get_absent props f_author Ha) in Hv.
      injection Hv as <-. exact Hfm.
Qed.

Lemma provided_sizes_kept_whole_witness :
  exists m,
    fetchRealVideoMetadata JSON.parse (responds_at 1200 (Some partial_payload))
      true a_url
    = Some (1200%N, Fulfilled m)
    /\ estimatedSizes m = JObject [("1080p", JString "150MB");
                                   ("720p", JString "90 MB");
                                   ("360p", JString "30 MB")]
    /\ (forall k, assoc k [("1080p", JString "150MB");
                           ("720p", JString "90 MB");
                           ("360p", JString "30 MB")] = None ->
                  binds_quality (estimatedSizes m) k = false)
    /\ (assoc "author"
          [("title", JString "Big Buck Bunny");
           ("views", JString "1,204,551");
           ("duration", JString "9:56");
           ("summary", JString "A short film. It is open.");
           ("estimatedSizes",
            JObject [("1080p", JString "150MB");
                     ("720p", JString "90 MB");
                     ("360p", JString "30 MB")])] = None ->
        author m = JString "Source Verified").
Proof.
  apply (provided_sizes_kept_whole JSON.parse
           (responds_at 1200 (Some partial_payload)) true a_url 1200
           {| text := Some partial_payload |}).
  - reflexivity.
  - reflexivity.
  - vm_compute. reflexivity.
  - reflexivity.
Defined.

(** C2 as stated fails: with a payload that lacks the author and two of the
    five size keys, the result's size mapping has the three provided keys
    only; "2160p" and "audio" are not filled from the fallback table. *)
Lemma missing_size_keys_are_not_filled :
  (exists m,
     fetchRealVideoMetadata JSON.parse
       (responds_at 1200 (Some partial_payload)) true a_url
     = Some (1200%N, Fulfilled m)
     /\ author m = JString "Source Verified"
     /\ estimatedSizes m = JObject [("1080p", JString "150MB");
                                    ("720p", JString "90 MB");
                                    ("360p", JString "30 MB")]
     /\ size_of (estimatedSizes m) "2160p" = JUndefined
     /\ size_of (estimatedSizes m) "audio" = JUndefined
     /\ size_of fallback_sizes "2160p" = JString "1.4 GB"
     /\ size_of fallback_sizes "audio" = JString "8.5 MB")
  /\ ~ sizes_merged_per_key.
Proof.
  assert (Hp : JSON.parse (text_or_empty_object
                            {| text := Some partial_payload |})
               = Normal (JObject
                           [("title", JString "Big Buck Bunny");
                            ("views", JString "1,204,551");
                            ("duration", JString "9:56");
                            ("summary", JString "A short film. It is open.");
                            ("estimatedSizes",
                             JObject [("1080p", JString "150MB");
                                      ("720p", JString "90 MB");
                                      ("360p", JString "30 MB")])]))
    by (vm_compute; reflexivity).
  assert (Hr : fetchRealVideoMetadata JSON.parse
                 (responds_at 1200 (Some partial_payload)) true a_url
               = Some (1200%N, Fulfilled
                    {| title := JString "Big Buck Bunny";
                       author := JString "Source Verified";
                       views := JString "1,204,551";
                       duration := JString "9:56";
                       summary := JString "A short film. It is open.";
                       estimatedSizes :=
                         JObject [("1080p", JString "150MB");
                                  ("720p", JString "90 MB");
                                  ("360p", JString "30 MB")] |}))
    by (vm_compute; reflexivity).
  split.
  - eexists. split; [exact Hr|].
    simpl. repeat split; reflexivity.
  - intros H.
    destruct (H JSON.parse (responds_at 1200 (Some partial_payload)) true
                a_url 1200%N {| text := Some partial_payload |} _ _
                eq_refl eq_refl Hp eq_refl) as (m & Hm & Hk).
    rewrite Hr in Hm. injection Hm as <-.
    specialize (Hk "2160p" (or_introl eq_refl)).
    discriminate Hk.
Qed.

(** C3, as the code has it: for every URL and every behaviour of the
    service, every field of the result is truthy (not undefined, null,
    false, 0 or the empty string), so a field that is a string is not empty;
    the size mapping is the fallback table, which binds the five quality
    keys to non-empty strings, or else the truthy value the payload itself
    held under [estimatedSizes], with the keys it came with. *)
Theorem result_fields_truthy
    (JSON_parse : string -> Completion JSValue) (generateContent : Service)
    (timer_first : bool) (url : string) :
  exists t m,
    fetchRealVideoMetadata JSON_parse generateContent timer_first url
    = Some (t, Fulfilled m)
    /\ (forall f, ToBoolean (field f m) = true)
    /\ (forall f s, field f m = JString s -> s <> EmptyString)
    /\ forallb (binds_quality fallback_sizes) quality_keys = true
    /\ (estimatedSizes m = fallback_sizes
        \/ exists r data,
             generateContent (request url) = Some (t, Fulfilled r)
             /\ JSON_parse (text_or_empty_object r) = Normal data
             /\ Get data f_estimatedSizes = Normal (estimatedSizes m)).
Proof.
  destruct (resolve_cases JSON_parse generateContent timer_first url)
    as (t & m & Hr & _ & Hm).
  exists t, m. split; [exact Hr|].
  assert (Htruthy : forall f, ToBoolean (field f m) = true).
  { intros f. destruct Hm as [->|(r & _ & Hn)].
    - apply fallback_truthy.
    - eapply normalize_truthy; eassumption. }
  split; [exact Htruthy|].
  split; [intros f s; apply truthy_string_nonempty, Htruthy|].
  split; [reflexivity|].
  destruct Hm as [->|(r & Hg & Hn)].
  - left. reflexivity.
  - destruct (normalize_sizes JSON_parse url r m Hn) as [Hs|(data & Hp & Hd)].
    + left. exact Hs.
    + right. exists r, data. repeat split; assumption.
Qed.

(** C3 as stated fails: with a payload that has all six fields, its size
    mapping as in the prompt's example (the key "1080p" alone), the result
    lacks four of the five quality keys; with a numeric title, the result's
    title is not a string. *)
Lemma result_may_lack_quality_keys :
  (exists m,
     fetchRealVideoMetadata JSON.parse
       (responds_at 1200 (Some prompt_example_payload)) true a_url
     = Some (1200%N, Fulfilled m)
     /\ estimatedSizes m = JObject [("1080p", JString "150MB")]
     /\ binds_quality (estimatedSizes m) "2160p" = false
     /\ well_shaped m = false)
  /\ (exists m,
        fetchRealVideoMetadata JSON.parse
          (responds_at 1200 (Some ill_typed_payload)) true a_url
        = Some (1200%N, Fulfilled m)
        /\ is_nonempty_string (title m) = false
        /\ well_shaped m = false)
  /\ ~ always_well_shaped.
Proof.
  assert (Hr : fetchRealVideoMetadata JSON.parse
                 (responds_at 1200 (Some prompt_example_payload)) true a_url
               = Some (1200%N, Fulfilled
                    {| title := JString "Big Buck Bunny";
                       author := JString "Blender";
                       views := JString "1,204,551";
                       duration := JString "9:56";
                       summary := JString "A short film. It is open.";
                       estimatedSizes :=
                         JObject [("1080p", JString "150MB")] |}))
    by (vm_compute; reflexivity).
  split; [|split].
  - eexists. split; [exact Hr|].
    simpl. repeat split; reflexivity.
  - eexists. split; [vm_compute; reflexivity|].
    split; reflexivity.
  - intros H.
    destruct (H JSON.parse (responds_at 1200 (Some prompt_example_payload))
                true a_url) as (t & m & Hm & Hw).
    rewrite Hr in Hm. injection Hm as _ <-.
    discriminate Hw.
Qed.

(** ** The matcher *)

Section Matcher.

Import Utf16 Re ReSpec.
Local Open Scope list_scope.

Lemma star_sound {R} (p : N -> bool) (s : jsstring) :
  forall (i : nat) (c : captures) (k : cont R) (res : R),
    star p i s c k = Some res ->
    exists w s', s = w ++ s' /\ Forall (fun u => p u = true) w
                 /\ k (i + length w) s' c = Some res.
Proof.
  induction s as [|u s IH]; intros i c k res H; simpl in H.
  - exists [], []. rewrite Nat.add_0_r. auto.
  - destruct (p u) eqn:Hp.
    + destruct (star p (S i) s c k) as [r|] eqn:Hs.
      * injection H as <-.
        destruct (IH _ _ _ _ Hs) as (w & s' & -> & Hw & Hk).
        exists (u :: w), s'. simpl.
        rewrite Nat.add_succ_r. auto.
      * exists [], (u :: s). rewrite Nat.add_0_r. auto.
    + exists [], (u :: s). rewrite Nat.add_0_r. auto.
Qed.

Lemma star_complete {R} (p : N -> bool) (w : jsstring) :
  forall (s' : jsstring) (i : nat) (c : captures) (k : cont R),
    Forall (fun u => p u = true) w ->
    k (i + length w) s' c <> None ->
    star p i (w ++ s') c k <> None.
Proof.
  induction w as [|u w IH]; intros s' i c k Hw Hk.
  - simpl in *. rewrite Nat.add_0_r in Hk.
    destruct s' as [|v s']; simpl; [exact Hk|].
    destruct (p v); [|exact Hk].
    destruct (star p (S i) s' c k); [discriminate | exact Hk].
  - inversion Hw as [|? ? Hu Hw']; subst. simpl. rewrite Hu.
    simpl in Hk. rewrite Nat.add_succ_r in Hk.
    specialize (IH s' (S i) c k Hw' Hk).
    destruct (star p (S i) (w ++ s') c k); [discriminate | contradiction].
Qed.

(** The greedy star answers with the continuation at the farthest index
    where it succeeds. *)
Lemma star_first_success {R} (p : N -> bool) (pre : jsstring) :
  forall (rest : jsstring) (i : nat) (c : captures) (k : cont R) (res : R),
    Forall (fun u => p u = true) pre ->
    (forall x y, rest = x ++ y -> x <> [] ->
                 Forall (fun u => p u = true) x ->
                 k (i + length pre + length x) y c = None) ->
    k (i + length pre) rest c = Some res ->
    star p i (pre ++ rest) c k = Some res.
Proof.
  induction pre as [|u pre IH]; intros rest i c k res Hpre Hfar Hk.
  - simpl in *. rewrite Nat.add_0_r in *.
    clear Hpre. revert i Hfar Hk.
    induction rest as [|v rest IHr]; intros i Hfar Hk; simpl; [exact Hk|].
    destruct (p v) eqn:Hv; [|exact Hk].
    assert (Hnone : star p (S i) rest c k = None).
    { destruct (star p (S i) rest c k) as [r|] eqn:Hs; [|reflexivity].
      destruct (star_sound _ _ _ _ _ _ Hs) as (w & s' & -> & Hw & Hk').
      assert (Hn : k (i + length (v :: w)) s' c = None).
      { apply Hfar; [reflexivity | discriminate | constructor; assumption]. }
      simpl in Hn. rewrite Nat.add_succ_r in Hn. simpl in Hk'.
      congruence. }
    rewrite Hnone. exact Hk.
  - inversion Hpre as [|? ? Hu Hpre']; subst. simpl. rewrite Hu.
    rewrite (IH rest (S i) c k res Hpre'); [reflexivity| |].
    + intros x y E Hx Hpx. simpl in Hfar.
      specialize (Hfar x y E Hx Hpx).
      rewrite Nat.add_succ_r in Hfar. exact Hfar.
    + simpl in Hk. rewrite Nat.add_succ_r in Hk. exact Hk.
Qed.

Lemma m_sound (r : RegExp) :
  forall {R} (i : nat) (s : jsstring) (c : captures) (k : cont R) (res : R),
    m r i s c k = Some res ->
    exists i' s' c', Matches r i s c i' s' c' /\ k i' s' c' = Some res.
Proof.
  induction r as [p| | | |a IHa b IHb|a IHa b IHb|p|a IHa|n a IHa];
    intros R i s c k res H; simpl in H.
  - destruct s as [|u s]; [discriminate|].
    destruct (p u) eqn:Hp; [|discriminate].
    eexists _, _, _. split; [constructor; exact Hp | exact H].
  - destruct (Nat.eqb i 0) eqn:E; [|discriminate].
    apply Nat.eqb_eq in E. subst.
    eexists _, _, _. split; [constructor | exact H].
  - destruct s; [|discriminate].
    eexists _, _, _. split; [constructor | exact H].
  - eexists _, _, _. split; [constructor | exact H].
  - destruct (IHa _ _ _ _ _ _ H) as (i1 & s1 & c1 & Ma & H1).
    destruct (IHb _ _ _ _ _ _ H1) as (i2 & s2 & c2 & Mb & H2).
    eexists _, _, _. split; [econstructor; eassumption | exact H2].
  - destruct (m a i s c k) as [ra|] eqn:Ea.
    + injection H as <-.
      destruct (IHa _ _ _ _ _ _ Ea) as (i' & s' & c' & Ma & H1).
      eexists _, _, _. split; [apply M_AltL; eassumption | exact H1].
    + destruct (IHb _ _ _ _ _ _ H) as (i' & s' & c' & Mb & H1).
      eexists _, _, _. split; [apply M_AltR; eassumption | exact H1].
  - destruct (star_sound _ _ _ _ _ _ H) as (w & s' & -> & Hw & Hk).
    eexists _, _, _. split; [apply M_Star; exact Hw | exact Hk].
  - destruct (m a i s c k) as [ra|] eqn:Ea.
    + injection H as <-.
      destruct (IHa _ _ _ _ _ _ Ea) as (i' & s' & c' & Ma & H1).
      eexists _, _, _. split; [apply M_OptSome; eassumption | exact H1].
    + eexists _, _, _. split; [apply M_OptNone | exact H].
  - destruct (IHa _ _ _ _ _ _ H) as (i' & s' & c' & Ma & H1).
    eexists _, _, _. split; [apply M_Group; eassumption | exact H1].
Qed.

Lemma m_complete (r : RegExp) (i : nat) (s : jsstring) (c : captures)
    (i' : nat) (s' : jsstring) (c' : captures) :
  Matches r i s c i' s' c' ->
  forall {R} (k : cont R), k i' s' c' <> None -> m r i s c k <> None.
Proof.
  induction 1 as [p u s i c Hp|s c|i c|i s c
                  |a b i s c i1 s1 c1 i2 s2 c2 Ma IHa Mb IHb
                  |a b i s c i' s' c' Ma IHa|a b i s c i' s' c' Mb IHb
                  |p w s i c Hw|a i s c i' s' c' Ma IHa|a i s c
                  |n a i s c i' s' c' Ma IHa];
    intros R k Hk; simpl.
  - rewrite Hp. exact Hk.
  - exact Hk.
  - exact Hk.
  - exact Hk.
  - apply IHa. apply IHb. exact Hk.
  - specialize (IHa R k Hk). destruct (m a i s c k); [discriminate | contradiction].
  - destruct (m a i s c k); [discriminate | apply IHb; exact Hk].
  - apply star_complete; assumption.
  - specialize (IHa R k Hk). destruct (m a i s c k); [discriminate | contradiction].
  - destruct (m a i s c k); [discriminate | exact Hk].
  - apply IHa. exact Hk.
Qed.

(** A match consumes a prefix of the text and counts it. *)
Lemma Matches_prefix (r : RegExp) (i : nat) (s : jsstring) (c : captures)
    (i' : nat) (s' : jsstring) (c' : captures) :
  Matches r i s c i' s' c' ->
  exists w, s = w ++ s' /\ i' = i + length w.
Proof.
  induction 1 as [p u s i c Hp|s c|i c|i s c
                  |a b i s c i1 s1 c1 i2 s2 c2 Ma IHa Mb IHb
                  |a b i s c i' s' c' Ma IHa|a b i s c i' s' c' Mb IHb
                  |p w s i c Hw|a i s c i' s' c' Ma IHa|a i s c
                  |n a i s c i' s' c' Ma IHa].
  - exists [u]. simpl. split; [reflexivity | lia].
  - exists []. auto.
  - exists []. auto.
  - exists []. auto.
  - destruct IHa as (w1 & -> & ->). destruct IHb as (w2 & -> & ->).
    exists (w1 ++ w2). rewrite <- app_assoc, length_app. split; [reflexivity | lia].
  - exact IHa.
  - exact IHb.
  - exists w. auto.
  - exact IHa.
  - exists []. auto.
  - exact IHa.
Qed.

End Matcher.

(** ** Direct links *)

Section DirectLinks.

Import Utf16 Re ReSpec.
Local Open Scope list_scope.

Lemma exec_some (r : RegExp) (s : jsstring) :
  forall i, exec r i s <> None <->
            exists a b, s = a ++ b /\ match_at r (i + length a) b <> None.
Proof.
  induction s as [|u s IH]; intros i; simpl.
  - destruct (match_at r i []) as [[e c]|] eqn:E.
    + split; [|discriminate]. intros _. exists [], [].
      simpl. rewrite Nat.add_0_r, E. split; [reflexivity | discriminate].
    + split; [congruence|]. intros (a & b & Hs & Hm).
      symmetry in Hs. apply app_eq_nil in Hs. destruct Hs as [-> ->].
      simpl in Hm. rewrite Nat.add_0_r, E in Hm. contradiction.
  - destruct (match_at r i (u :: s)) as [[e c]|] eqn:E.
    + split; [|discriminate]. intros _. exists [], (u :: s).
      simpl. rewrite Nat.add_0_r, E. split; [reflexivity | discriminate].
    + rewrite IH. split.
      * intros (a & b & -> & Hm). exists (u :: a), b. simpl.
        rewrite Nat.add_succ_r. auto.
      * intros (a & b & Hs & Hm). destruct a as [|v a].
        -- simpl in *. subst b. rewrite Nat.add_0_r, E in Hm. contradiction.
        -- simpl in Hs. injection Hs as -> ->. exists a, b.
           simpl in Hm. rewrite Nat.add_succ_r in Hm. auto.
Qed.

Lemma test_true (r : RegExp) (s : jsstring) :
  test r s = true <->
  exists a b, s = a ++ b /\ match_at r (length a) b <> None.
Proof.
  unfold test. rewrite <- (exec_some r s 0).
  destruct (exec r 0 s); split; intro H; congruence || reflexivity.
Qed.

Lemma match_at_sound (r : RegExp) (i : nat) (s : jsstring) :
  match_at r i s <> None <-> exists i' s' c', Matches r i s [] i' s' c'.
Proof.
  unfold match_at. split.
  - destruct (m r i s [] (fun e _ c => Some (e, c))) as [res|] eqn:E;
      [|congruence].
    intros _. destruct (m_sound r _ _ _ _ _ E) as (i' & s' & c' & M & _).
    eauto.
  - intros (i' & s' & c' & M).
    apply (m_complete _ _ _ _ _ _ _ M). discriminate.
Qed.

Lemma Matches_chars (f : ascii -> N -> bool) (w : string) :
  forall i s c i' s' c',
    Matches (chars f w) i s c i' s' c' ->
    exists e, s = e ++ s' /\ c' = c
              /\ Forall2 (fun a u => f a u = true) (list_ascii_of_string w) e.
Proof.
  induction w as [|a w IH]; intros i s c i' s' c' M; simpl in M.
  - inversion M; subst. exists []. simpl. auto.
  - inversion M as [| | | |? ? ? ? ? i1 s1 c1 ? ? ? Ma Mb| | | | | |]; subst.
    inversion Ma; subst.
    destruct (IH _ _ _ _ _ _ Mb) as (e & -> & -> & He).
    exists (u :: e). simpl. auto.
Qed.

Lemma chars_Matches (f : ascii -> N -> bool) (w : string) :
  forall e i s' c,
    Forall2 (fun a u => f a u = true) (list_ascii_of_string w) e ->
    Matches (chars f w) i (e ++ s') c (i + length e) s' c.
Proof.
  induction w as [|a w IH]; intros e i s' c He; simpl in *.
  - inversion He; subst. simpl. rewrite Nat.add_0_r. constructor.
  - inversion He as [|? u ? e' Hu He']; subst. simpl.
    rewrite Nat.add_succ_r.
    econstructor; [constructor; exact Hu|].
    apply (IH e' (S i) s' c He').
Qed.

Lemma Matches_alt (rs : list RegExp) :
  rs <> [] ->
  forall i s c i' s' c',
    Matches (alt rs) i s c i' s' c' <->
    exists r, In r rs /\ Matches r i s c i' s' c'.
Proof.
  induction rs as [|r rs IH]; intros Hne i s c i' s' c'; [contradiction|].
  destruct rs as [|r2 rs].
  - simpl. split.
    + intros M. exists r. auto.
    + intros (r' & [<-|[]] & M). exact M.
  - change (alt (r :: r2 :: rs)) with (Alt r (alt (r2 :: rs))). split.
    + intros M.
      inversion M as [| | | | |? ? ? ? ? ? ? ? Ma|? ? ? ? ? ? ? ? Mb| | | |];
        subst.
      * exists r. split; [left; reflexivity | assumption].
      * assert (Hne2 : r2 :: rs <> []) by discriminate.
        destruct (proj1 (IH Hne2 _ _ _ _ _ _) Mb) as (r' & Hin & M').
        exists r'. split; [right; exact Hin | exact M'].
    + intros (r' & [<-|Hin] & M').
      * apply M_AltL. exact M'.
      * apply M_AltR. apply IH; [discriminate|]. eauto.
Qed.

(** The lower case of one code unit, as [toLowerCase] maps it. *)
Lemma toLowerCase_cons (u : N) (s : jsstring) :
  toLowerCase (u :: s) =
  (if (65 <=? u)%N && (u <=? 90)%N then (u + 32)%N else u) :: toLowerCase s.
Proof. reflexivity. Qed.

Lemma chr_i_lower (a : ascii) (u : N) :
  lower_alnum a = true ->
  chr_i a u = true <->
  (if (65 <=? u)%N && (u <=? 90)%N then (u + 32)%N else u) = code a.
Proof.
  unfold lower_alnum, chr_i, Canonicalize. generalize (code a) as n.
  intros n Hn.
  destruct (97 <=? n)%N eqn:A1; destruct (n <=? 122)%N eqn:A2;
    destruct (48 <=? n)%N eqn:A3; destruct (n <=? 57)%N eqn:A4;
    simpl in Hn; try discriminate;
    destruct (97 <=? u)%N eqn:B1; destruct (u <=? 122)%N eqn:B2;
    destruct (65 <=? u)%N eqn:B3; destruct (u <=? 90)%N eqn:B4;
    simpl; rewrite N.eqb_eq;
    repeat match goal with
           | H : (_ <=? _)%N = true |- _ => apply N.leb_le in H
           | H : (_ <=? _)%N = false |- _ => apply N.leb_gt in H
           end; lia.
Qed.

Lemma word_ci (w : string) (e : jsstring) :
  forallb lower_alnum (list_ascii_of_string w) = true ->
  Forall2 (fun a u => chr_i a u = true) (list_ascii_of_string w) e <->
  toLowerCase e = lit w.
Proof.
  unfold lit. revert e.
  induction (list_ascii_of_string w) as [|a l IH]; intros e Hl.
  - split.
    + intros H. inversion H. reflexivity.
    + destruct e; [constructor | discriminate].
  - simpl in Hl. apply andb_true_iff in Hl. destruct Hl as [Ha Hl]. split.
    + intros H. inversion H as [|? u ? e' Hu He']; subst.
      rewrite toLowerCase_cons. simpl. f_equal.
      * apply chr_i_lower; assumption.
      * apply IH; assumption.
    + destruct e as [|u e]; [discriminate|].
      rewrite toLowerCase_cons. simpl. intros H. injection H as Hu He.
      constructor; [apply chr_i_lower; assumption | apply IH; assumption].
Qed.

Lemma extensions_lower (x : string) :
  In x extensions -> forallb lower_alnum (list_ascii_of_string x) = true.
Proof.
  unfold extensions. simpl.
  intros H; repeat (destruct H as [<-|H]; [reflexivity|]); contradiction.
Qed.

Lemma chr_i_period (u : N) : chr_i "." u = true <-> u = 46%N.
Proof.
  unfold chr_i, Canonicalize. change (code ".") with 46%N. simpl.
  destruct (97 <=? u)%N eqn:B1; destruct (u <=? 122)%N eqn:B2; simpl;
    rewrite N.eqb_eq;
    repeat match goal with
           | H : (_ <=? _)%N = true |- _ => apply N.leb_le in H
           | H : (_ <=? _)%N = false |- _ => apply N.leb_gt in H
           end; lia.
Qed.

(** Where the pattern of the extensions matches. *)
Lemma extension_at (i : nat) (b : jsstring) :
  match_at App.extension i b <> None <->
  exists e x, b = lit "." ++ e /\ In x extensions /\ toLowerCase e = lit x.
Proof.
  rewrite match_at_sound. unfold App.extension. split.
  - intros (i' & s' & c' & M).
    inversion M as [| | | |? ? ? ? ? i1 s1 c1 ? ? ? Mdot Mrest| | | | | |];
      subst.
    inversion Mdot as [? u ? ? ? Hu| | | | | | | | | |]; subst.
    inversion Mrest as [| | | |? ? ? ? ? i2 s2 c2 ? ? ? Mg Meol| | | | | |];
      subst.
    inversion Meol; subst.
    inversion Mg as [| | | | | | | | | |? ? ? ? ? ? ? ? Malt]; subst.
    match type of Malt with
    | Matches _ ?j ?t ?d ?j' ?t' ?d' =>
        change (Matches (alt (List.map str_i extensions)) j t d j' t' d')
          in Malt
    end.
    apply Matches_alt in Malt; [|discriminate].
    destruct Malt as (r & Hin & Mr).
    apply in_map_iff in Hin. destruct Hin as (x & <- & Hx).
    apply Matches_chars in Mr. destruct Mr as (e & -> & _ & He).
    exists e, x. rewrite app_nil_r.
    apply chr_i_period in Hu. subst u.
    split; [reflexivity|]. split; [exact Hx|].
    apply word_ci; [apply extensions_lower; exact Hx | exact He].
  - intros (e & x & -> & Hx & He).
    apply word_ci in He; [|apply extensions_lower; exact Hx].
    eexists _, _, _.
    change (lit "." ++ e) with (46%N :: e).
    econstructor; [constructor; reflexivity|].
    econstructor; [|apply M_Eol].
    apply M_Group. apply Matches_alt; [discriminate|].
    exists (str_i x). split; [apply in_map; exact Hx|].
    rewrite <- (app_nil_r e) at 1.
    apply chars_Matches. exact He.
Qed.

Lemma split_scan_separator (s : jsstring) :
  forall i, split_scan App.separator i s = before_separator s.
Proof.
  induction s as [|u s IH]; intros i; simpl; [reflexivity|].
  unfold match_at; simpl.
  destruct (none_of ["?"%char; "#"%char] u); simpl.
  - rewrite IH. reflexivity.
  - reflexivity.
Qed.

Lemma split_head_separator (s : jsstring) :
  split_head App.separator s = Some (before_separator s).
Proof.
  destruct s as [|u s]; [reflexivity|].
  unfold split_head. rewrite split_scan_separator. reflexivity.
Qed.

Lemma before_separator_split (s : jsstring) :
  exists rest,
    s = before_separator s ++ rest
    /\ Forall (fun u => none_of ["?"; "#"]%char u = true) (before_separator s)
    /\ (rest = [] \/
        exists u r, rest = u :: r /\ none_of ["?"; "#"]%char u = false).
Proof.
  induction s as [|u s (rest & Hs & Hf & Hr)]; simpl.
  - exists []. auto.
  - destruct (none_of ["?"%char; "#"%char] u) eqn:E.
    + exists rest. simpl. rewrite <- Hs. auto.
    + exists (u :: s). simpl. split; [reflexivity|]. split; [constructor|].
      right. eauto.
Qed.

Lemma before_separator_app (pre rest : jsstring) :
  Forall (fun u => none_of ["?"; "#"]%char u = true) pre ->
  rest = [] \/ (exists u r, rest = u :: r /\ none_of ["?"; "#"]%char u = false) ->
  before_separator (pre ++ rest) = pre.
Proof.
  intros Hpre Hrest. induction Hpre as [|u pre Hu Hpre IH]; simpl.
  - destruct Hrest as [->|(u & r & -> & Hu)]; simpl; [reflexivity|].
    rewrite Hu. reflexivity.
  - rewrite Hu, IH. reflexivity.
Qed.

Lemma lower_word_free (x : string) (e : jsstring) :
  forallb lower_alnum (list_ascii_of_string x) = true ->
  toLowerCase e = lit x ->
  Forall (fun u => none_of ["?"; "#"]%char u = true) e.
Proof.
  unfold lit. revert e.
  induction (list_ascii_of_string x) as [|a l IH]; intros e Hl He.
  - destruct e; [constructor | discriminate].
  - destruct e as [|u e]; [discriminate|].
    rewrite toLowerCase_cons in He. simpl in He, Hl.
    injection He as Hu He.
    apply andb_true_iff in Hl. destruct Hl as [Ha Hl].
    constructor; [|apply IH; assumption].
    unfold lower_alnum in Ha. unfold code in *. rewrite <- Hu in Ha.
    unfold none_of, code. simpl.
    destruct (N.eqb_spec u 63) as [->|]; [discriminate Ha|].
    destruct (N.eqb_spec u 35) as [->|]; [discriminate Ha|].
    reflexivity.
Qed.

End DirectLinks.

Section DirectLinkTheorems.

Import Utf16 Re ReSpec.
Local Open Scope list_scope.

Lemma isDirectVideoLink_clean (url : jsstring) :
  App.isDirectVideoLink url = test App.extension (before_separator url).
Proof.
  unfold App.isDirectVideoLink. rewrite split_head_separator. reflexivity.
Qed.

(** X1: [isDirectVideoLink] accepts exactly the addresses whose part before
    the first [?] or [#] ends with a period and one of the ten extensions,
    in any mix of upper and lower case. *)
Theorem direct_link_iff (url : jsstring) :
  App.isDirectVideoLink url = true <->
  exists stem e x rest,
    url = stem ++ lit "." ++ e ++ rest
    /\ Forall (fun u => none_of ["?"; "#"]%char u = true) stem
    /\ In x extensions
    /\ toLowerCase e = lit x
    /\ (rest = [] \/
        exists u r, rest = u :: r /\ none_of ["?"; "#"]%char u = false).
Proof.
  rewrite isDirectVideoLink_clean, test_true. split.
  - intros (a & b & Hc & Hm).
    apply extension_at in Hm. destruct Hm as (e & x & -> & Hx & He).
    destruct (before_separator_split url) as (rest & Hu & Hf & Hr).
    exists a, e, x, rest. rewrite Hc in Hu, Hf.
    rewrite <- !app_assoc in Hu.
    split; [exact Hu|].
    apply Forall_app in Hf. destruct Hf as [Hf _].
    auto.
  - intros (stem & e & x & rest & -> & Hs & Hx & He & Hr).
    assert (Hclean : before_separator (stem ++ lit "." ++ e ++ rest)
                     = stem ++ lit "." ++ e).
    { rewrite !app_assoc. rewrite <- (app_assoc stem).
      apply before_separator_app; [|exact Hr].
      apply Forall_app. split; [exact Hs|].
      apply Forall_app. split; [repeat constructor|].
      apply (lower_word_free x); [apply extensions_lower; exact Hx | exact He]. }
    rewrite Hclean. exists stem, (lit "." ++ e).
    split; [reflexivity|].
    apply extension_at. exists e, x. auto.
Qed.

(** X2: what follows the first [?] or [#] of an address does not change
    the answer of [isDirectVideoLink]. *)
Theorem direct_link_ignores_query (base rest : jsstring) (u : N) :
  Forall (fun v => none_of ["?"; "#"]%char v = true) base ->
  none_of ["?"; "#"]%char u = false ->
  App.isDirectVideoLink (base ++ u :: rest) = App.isDirectVideoLink base.
Proof.
  intros Hb Hu. rewrite !isDirectVideoLink_clean.
  rewrite (before_separator_app base (u :: rest) Hb); [|right; eauto].
  rewrite <- (app_nil_r base) at 2.
  rewrite (before_separator_app base [] Hb); [reflexivity | left; reflexivity].
Qed.

Lemma direct_link_ignores_query_witness :
  App.isDirectVideoLink (lit "https://cdn.example.com/clip.WebM" ++ 63%N :: lit "token=a.b#t=10")
  = App.isDirectVideoLink (lit "https://cdn.example.com/clip.WebM").
Proof.
  apply (direct_link_ignores_query (lit "https://cdn.example.com/clip.WebM")
           (lit "token=a.b#t=10") 63%N).
  - vm_compute. repeat constructor.
  - reflexivity.
Defined.

End DirectLinkTheorems.

(** ** Video identifiers *)

Section YouTube.

Import Utf16 Re ReSpec.
Local Open Scope list_scope.

Lemma run_after_run (p : N -> bool) (s : jsstring) :
  s = run p s ++ after_run p s.
Proof.
  induction s as [|u s IH]; simpl; [reflexivity|].
  destruct (p u); simpl; [f_equal; exact IH | reflexivity].
Qed.

Lemma run_Forall (p : N -> bool) (s : jsstring) :
  Forall (fun u => p u = true) (run p s).
Proof.
  induction s as [|u s IH]; simpl; [constructor|].
  destruct (p u) eqn:E; [constructor; assumption | constructor].
Qed.

Lemma run_app (p : N -> bool) (w rest : jsstring) :
  Forall (fun u => p u = true) w ->
  rest = [] \/ (exists u r, rest = u :: r /\ p u = false) ->
  run p (w ++ rest) = w.
Proof.
  intros Hw Hrest. induction Hw as [|u w Hu Hw IH]; simpl.
  - destruct Hrest as [->|(u & r & -> & Hu)]; simpl; [reflexivity|].
    rewrite Hu. reflexivity.
  - rewrite Hu, IH. reflexivity.
Qed.

Lemma firstn_run (p : N -> bool) (s : jsstring) (i : nat) :
  firstn (i + length (run p s) - i) s = run p s.
Proof.
  replace (i + length (run p s) - i) with (length (run p s)) by lia.
  rewrite (run_after_run p s) at 2.
  rewrite firstn_app, Nat.sub_diag, firstn_all. simpl.
  apply app_nil_r.
Qed.

Lemma star_total {R} (p : N -> bool) (k : cont R) :
  total k ->
  forall s i c,
    star p i s c k = k (i + length (run p s)) (after_run p s) c.
Proof.
  intros Hk. induction s as [|u s IH]; intros i c; simpl.
  - rewrite Nat.add_0_r. reflexivity.
  - destruct (p u); simpl.
    + rewrite IH. rewrite Nat.add_succ_r. simpl.
      destruct (k (S (i + length (run p s))) (after_run p s) c) eqn:E;
        [reflexivity | exfalso; exact (Hk _ _ _ E)].
    + rewrite Nat.add_0_r. reflexivity.
Qed.

Lemma opt_char_strip {R} (a : ascii) (k : cont R) :
  total k ->
  forall i s c,
    exists j, m (Opt (Char (chr a))) i s c k = k j (strip a s) c.
Proof.
  intros Hk i s c. simpl. destruct s as [|u s]; simpl.
  - exists i. reflexivity.
  - destruct (chr a u).
    + exists (S i).
      destruct (k (S i) s c) eqn:E; [reflexivity | exfalso; exact (Hk _ _ _ E)].
    + exists i. reflexivity.
Qed.

(** After a mark the rest of the pattern always matches, and group 7 holds
    the run that follows the optional [?], [v] and [=]. *)
Lemma tail_eval (t : jsstring) (i : nat) (c : captures) :
  exists e,
    m App.tail i t c (fun e _ c => Some (e, c))
    = Some (e, (7, after_mark t) :: c).
Proof.
  set (k0 := fun (e : nat) (_ : jsstring) (c : captures) => Some (e, c)).
  assert (T0 : total k0) by (intros ? ? ?; discriminate).
  set (k4 := fun i s c => star dot i s c k0).
  assert (T4 : total k4).
  { intros j s d. unfold k4. rewrite (star_total dot k0 T0). apply T0. }
  set (k3 := fun i s c =>
               star App.id_chars i s c
                 (fun i' s' c' => k4 i' s' ((7, firstn (i' - i) s) :: c'))).
  assert (E3 : forall j s d,
             k3 j s d
             = k0 (j + length (run App.id_chars s)
                   + length (run dot (after_run App.id_chars s)))
                  (after_run dot (after_run App.id_chars s))
                  ((7, run App.id_chars s) :: d)).
  { intros j s d. unfold k3. rewrite star_total.
    - rewrite firstn_run. unfold k4. rewrite (star_total dot k0 T0).
      reflexivity.
    - intros j' s' d'. apply T4. }
  assert (T3 : total k3) by (intros j s d; rewrite E3; apply T0).
  set (k2 := fun i s c => m (Opt (Char (chr "="))) i s c k3).
  assert (T2 : total k2).
  { intros j s d. unfold k2.
    destruct (opt_char_strip "=" k3 T3 j s d) as (j' & ->). apply T3. }
  set (k1 := fun i s c => m (Opt (Char (chr "v"))) i s c k2).
  assert (T1 : total k1).
  { intros j s d. unfold k1.
    destruct (opt_char_strip "v" k2 T2 j s d) as (j' & ->). apply T2. }
  change (m App.tail i t c k0) with (m (Opt (Char (chr "?"))) i t c k1).
  destruct (opt_char_strip "?" k1 T1 i t c) as (j1 & ->). unfold k1.
  destruct (opt_char_strip "v" k2 T2 j1 (strip "?" t) c) as (j2 & ->).
  unfold k2.
  destruct (opt_char_strip "=" k3 T3 j2 (strip "v" (strip "?" t)) c)
    as (j3 & ->).
  rewrite E3. unfold k0, after_mark. eexists. reflexivity.
Qed.

Lemma chars_chr (w : string) (e : jsstring) :
  Forall2 (fun a u => chr a u = true) (list_ascii_of_string w) e ->
  e = lit w.
Proof.
  unfold lit. revert e.
  induction (list_ascii_of_string w) as [|a l IH]; intros e H;
    inversion H as [|? u ? e' Hu He']; subst; [reflexivity|].
  simpl. apply N.eqb_eq in Hu. subst u. f_equal. apply IH. exact He'.
Qed.

Lemma Matches_str (w : string) (i : nat) (s : jsstring) (c : captures)
    (i' : nat) (s' : jsstring) (c' : captures) :
  Matches (str w) i s c i' s' c' -> s = lit w ++ s' /\ c' = c.
Proof.
  intros M. apply Matches_chars in M. destruct M as (e & -> & -> & He).
  rewrite (chars_chr _ _ He). auto.
Qed.

End YouTube.

Section YouTubeMarks.

Import Utf16 Re ReSpec.
Local Open Scope list_scope.

(** Where the marks match, the text starts with a mark. *)
Lemma Matches_marks (i : nat) (y : jsstring) (c : captures)
    (i' : nat) (s' : jsstring) (c' : captures) :
  Matches App.marks i y c i' s' c' ->
  exists mk, y = mk ++ s' /\ marker mk.
Proof.
  unfold App.marks. intros M.
  repeat match goal with
         | H : Matches (Group _ _) _ _ _ _ _ _ |- _ =>
             inversion H; subst; clear H
         | H : Matches (Alt _ _) _ _ _ _ _ _ |- _ =>
             inversion H; subst; clear H
         | H : Matches (Seq _ _) _ _ _ _ _ _ |- _ =>
             inversion H; subst; clear H
         | H : Matches (Char _) _ _ _ _ _ _ |- _ =>
             inversion H; subst; clear H
         | H : Matches (str _) _ _ _ _ _ _ |- _ =>
             apply Matches_str in H; destruct H as [? ?]; subst
         end.
  - eexists. split; [|apply (mark_short u); assumption].
    rewrite <- !app_assoc. reflexivity.
  - eexists. split; [|apply mark_v]. reflexivity.
  - eexists. split; [|apply (mark_user u); assumption].
    rewrite <- !app_assoc. reflexivity.
  - eexists. split; [|apply mark_embed]. reflexivity.
  - eexists. split; [|apply mark_watch]. reflexivity.
Qed.

Lemma marks_sound {R} (i : nat) (y : jsstring) (c : captures) (k : cont R)
    (res : R) :
  m App.marks i y c k = Some res -> marked y.
Proof.
  intros H. destruct (m_sound _ _ _ _ _ _ H) as (i' & s' & c' & M & _).
  destruct (Matches_marks _ _ _ _ _ _ M) as (mk & -> & Hm).
  exists mk, s'. auto.
Qed.

(** At a mark the marks match it, and the rest of the pattern goes on
    from behind it. *)
Lemma marks_eval {R} (mk t : jsstring) (i : nat) (c : captures) (k : cont R) :
  marker mk ->
  (forall c1, k (length mk + i) t c1 <> None) ->
  exists c1, m App.marks i (mk ++ t) c k = k (length mk + i) t c1.
Proof.
  intros Hm Hk.
  destruct Hm as [d Hd| |w Hw| |]; cbn; rewrite ?Hd, ?Hw;
    first
      [ match goal with
        | |- exists c1, match k ?a ?b ?d1 with
                        | Some _ => _
                        | None => _
                        end = _ =>
            exists d1; destruct (k a b d1) eqn:E;
            [reflexivity | exfalso; exact (Hk _ E)]
        end
      | eexists; reflexivity ].
Qed.

End YouTubeMarks.

Section YouTubeTheorems.

Import Utf16 Re ReSpec.
Local Open Scope list_scope.

Lemma exec_unfold (r : RegExp) (i : nat) (s : jsstring) :
  exec r i s =
  match match_at r i s with
  | Some (e, c) => Some (i, e, c)
  | None =>
      match s with
      | [] => None
      | _ :: s' => exec r (S i) s'
      end
  end.
Proof. destruct s; reflexivity. Qed.

Lemma exec_sound (r : RegExp) (s : jsstring) :
  forall i st e c,
    exec r i s = Some (st, e, c) ->
    exists a b, s = a ++ b /\ st = i + length a /\ match_at r st b = Some (e, c).
Proof.
  induction s as [|u s IH]; intros i st e c H; rewrite exec_unfold in H.
  - destruct (match_at r i []) as [[e' c']|] eqn:E; [|discriminate].
    injection H as <- <- <-. exists [], []. simpl.
    rewrite Nat.add_0_r. auto.
  - destruct (match_at r i (u :: s)) as [[e' c']|] eqn:E.
    + injection H as <- <- <-. exists [], (u :: s). simpl.
      rewrite Nat.add_0_r. auto.
    + destruct (IH _ _ _ _ H) as (a & b & -> & -> & Hm).
      exists (u :: a), b. simpl. rewrite Nat.add_succ_r. auto.
Qed.

Lemma regExp_at (i : nat) (s : jsstring) :
  match_at App.regExp i s =
  if Nat.eqb i 0 then
    star dot i s []
      (fun i1 s1 c1 =>
         m App.marks i1 s1 c1
           (fun i2 s2 c2 => m App.tail i2 s2 c2 (fun e _ c => Some (e, c))))
  else None.
Proof. reflexivity. Qed.

(** The match of the whole pattern when the last mark of the text is
    known. *)
Lemma regExp_last_mark (pre mk t : jsstring) :
  Forall (fun u => dot u = true) pre ->
  marker mk ->
  (forall x y, mk ++ t = x ++ y -> x <> [] -> ~ marked y) ->
  exists e c,
    match_at App.regExp 0 (pre ++ mk ++ t) = Some (e, c)
    /\ capture 7 c = Some (after_mark t).
Proof.
  intros Hpre Hmk Hlast. rewrite regExp_at. simpl Nat.eqb. cbv iota.
  set (k1 := fun i2 s2 c2 => m App.tail i2 s2 c2 (fun e _ c => Some (e, c))).
  assert (T1 : forall i s c, k1 i s c <> None).
  { intros i s c. unfold k1. destruct (tail_eval s i c) as (e & ->).
    discriminate. }
  destruct (marks_eval mk t (0 + length pre) [] k1 Hmk (fun c1 => T1 _ _ c1))
    as (c1 & E1).
  destruct (tail_eval t (length mk + (0 + length pre)) c1) as (e & E2).
  exists e, ((7, after_mark t) :: c1). split; [|reflexivity].
  apply star_first_success.
  - exact Hpre.
  - intros x y Hxy Hx _.
    destruct (m App.marks (0 + length pre + length x) y [] k1) eqn:E;
      [|reflexivity].
    exfalso. apply (Hlast x y Hxy Hx). exact (marks_sound _ _ _ _ _ E).
  - rewrite E1. exact E2.
Qed.

Lemma getYouTubeID_last_mark (pre mk t : jsstring) :
  Forall (fun u => dot u = true) pre ->
  marker mk ->
  (forall x y, mk ++ t = x ++ y -> x <> [] -> ~ marked y) ->
  App.getYouTubeID (pre ++ mk ++ t)
  = Normal (if Nat.eqb (length (after_mark t)) 11
            then Some (after_mark t) else None).
Proof.
  intros Hpre Hmk Hlast.
  destruct (regExp_last_mark pre mk t Hpre Hmk Hlast) as (e & c & E & Hc).
  unfold App.getYouTubeID, match_. rewrite exec_unfold, E, Hc. reflexivity.
Qed.

(** X3: when the last mark of an address is known, and no line terminator
    comes before it, [getYouTubeID] answers with the run of characters
    other than [#], [&] and [?] that follows the mark and the optional [?],
    [v] and [=], if that run has 11 code units, and with null otherwise. *)
Theorem id_follows_last_mark (pre mk t : jsstring) :
  Forall (fun u => dot u = true) pre ->
  marker mk ->
  (forall x y, mk ++ t = x ++ y -> x <> [] -> ~ marked y) ->
  App.getYouTubeID (pre ++ mk ++ t)
  = Normal (if Nat.eqb (length (after_mark t)) 11
            then Some (after_mark t) else None).
Proof. exact (getYouTubeID_last_mark pre mk t). Qed.

(** What the rest of the pattern matches after a mark. *)
Lemma Matches_tail (i : nat) (s : jsstring) (c : captures)
    (i' : nat) (s' : jsstring) (c' : captures) :
  Matches App.tail i s c i' s' c' ->
  exists gl id post,
    s = gl ++ id ++ post ++ s' /\ In gl glue
    /\ Forall (fun u => App.id_chars u = true) id
    /\ c' = (7, id) :: c.
Proof.
  unfold App.tail. intros M.
  repeat match goal with
         | H : Matches (Seq _ _) _ _ _ _ _ _ |- _ =>
             inversion H; subst; clear H
         | H : Matches (Opt _) _ _ _ _ _ _ |- _ =>
             inversion H; subst; clear H
         | H : Matches (Char (chr _)) _ _ _ _ _ _ |- _ =>
             inversion H; subst; clear H
         | H : chr _ _ = true |- _ =>
             apply N.eqb_eq in H; subst
         end;
    match goal with
    | Hg : Matches (Group 7 _) ?j _ _ _ _ _,
      Hd : Matches (StarChar dot) _ _ _ _ _ _ |- _ =>
        inversion Hg as [| | | | | | | | | |? ? ? ? ? j' ? ? Hs]; subst;
        inversion Hs as [| | | | | | |? w ? ? ? Hw| | |]; subst;
        inversion Hd as [| | | | | | |? w' ? ? ? Hw'| | |]; subst;
        replace (j + length w - j) with (length w) by lia;
        rewrite firstn_app, Nat.sub_diag, firstn_all; simpl firstn;
        rewrite app_nil_r
    end;
    match goal with
    | |- exists gl id post, ?l = _ /\ _ =>
        match l with
        | context [?w ++ ?w' ++ ?s'] =>
            first
              [ exists [], w, w'; split; [reflexivity|]
              | exists [code "?"], w, w'; split; [reflexivity|]
              | exists [code "v"], w, w'; split; [reflexivity|]
              | exists [code "="], w, w'; split; [reflexivity|]
              | exists [code "?"; code "v"], w, w'; split; [reflexivity|]
              | exists [code "?"; code "="], w, w'; split; [reflexivity|]
              | exists [code "v"; code "="], w, w'; split; [reflexivity|]
              | exists [code "?"; code "v"; code "="], w, w';
                split; [reflexivity|] ]
        end
    end;
    (split; [unfold glue; simpl; auto 12 | split; [assumption | reflexivity]]).
Qed.

Lemma getYouTubeID_cases (url : jsstring) :
  App.getYouTubeID url = Normal None \/
  exists id pre mk gl post,
    App.getYouTubeID url = Normal (Some id)
    /\ length id = 11
    /\ Forall (fun u => App.id_chars u = true) id
    /\ url = pre ++ mk ++ gl ++ id ++ post
    /\ marker mk /\ In gl glue.
Proof.
  unfold App.getYouTubeID, match_.
  destruct (exec App.regExp 0 url) as [[[st e] c]|] eqn:E;
    [|left; reflexivity].
  destruct (exec_sound _ _ _ _ _ _ E) as (a & b & -> & -> & Hm).
  unfold match_at in Hm.
  destruct (m_sound _ _ _ _ _ _ Hm) as (i' & s' & c' & M & Hk).
  injection Hk as <- <-.
  unfold App.regExp in M.
  inversion M as [| | | |? ? ? ? ? i1 s1 c1 ? ? ? Mbol M1| | | | | |]; subst.
  inversion Mbol; subst.
  inversion M1 as [| | | |? ? ? ? ? i2 s2 c2 ? ? ? Mstar M2| | | | | |]; subst.
  inversion Mstar as [| | | | | | |? w ? ? ? Hw| | |]; subst.
  inversion M2 as [| | | |? ? ? ? ? i3 s3 c3 ? ? ? Mmarks Mtail| | | | | |];
    subst.
  destruct (Matches_marks _ _ _ _ _ _ Mmarks) as (mk & -> & Hmk).
  destruct (Matches_tail _ _ _ _ _ _ Mtail) as (gl & id & post & -> & Hgl & Hid & ->).
  simpl.
  destruct (Nat.eqb (length id) 11) eqn:L; [|left; reflexivity].
  right. exists id, (a ++ w), mk, gl, (post ++ s').
  apply Nat.eqb_eq in L.
  repeat split; try assumption.
  rewrite <- !app_assoc. reflexivity.
Qed.

(** X4: [getYouTubeID] never throws.  Its answer is null or a text of 11
    code units, none of them [#], [&] or [?], that stands in the address
    behind one of the five marks and at most a [?], a [v] and a [=]. *)
Theorem youtube_id_shape (url : jsstring) :
  App.getYouTubeID url = Normal None \/
  exists id pre mk gl post,
    App.getYouTubeID url = Normal (Some id)
    /\ length id = 11
    /\ Forall (fun u => App.id_chars u = true) id
    /\ url = pre ++ mk ++ gl ++ id ++ post
    /\ marker mk /\ In gl glue.
Proof. exact (getYouTubeID_cases url). Qed.

End YouTubeTheorems.

Section YouTubeAddresses.

Import Utf16 Re ReSpec.
Local Open Scope list_scope.

Lemma marked_starts (y : jsstring) : marked y -> starts_with_mark y = true.
Proof.
  intros (mk & y' & -> & Hm). unfold starts_with_mark.
  destruct (marks_eval mk y' 0 [] (fun _ _ _ => Some tt) Hm) as (c1 & ->);
    [discriminate | reflexivity].
Qed.

Lemma no_mark_in_spec (s : jsstring) :
  no_mark_in s = true -> forall x y, s = x ++ y -> ~ marked y.
Proof.
  induction s as [|u s IH]; intros H x y E Hy.
  - symmetry in E. apply app_eq_nil in E. destruct E as [_ ->].
    destruct Hy as (mk & y' & E & Hm).
    destruct Hm; discriminate E.
  - simpl in H. apply andb_true_iff in H. destruct H as [Hu Hs].
    destruct x as [|v x].
    + simpl in E. subst y. apply marked_starts in Hy.
      rewrite Hy in Hu. discriminate.
    + simpl in E. injection E as _ E. exact (IH Hs x y E Hy).
Qed.

Lemma marker_not_plain (mk : jsstring) :
  marker mk -> ~ Forall (fun u => plain u = true) mk.
Proof.
  intros [d Hd| |w Hw| |] H; cbn in H;
    repeat match goal with
           | H : Forall _ (_ :: _) |- _ => inversion H; subst; clear H
           end;
    discriminate.
Qed.

Lemma plain_unmarked (y : jsstring) :
  Forall (fun u => plain u = true) y -> ~ marked y.
Proof.
  intros Hy (mk & y' & -> & Hm).
  apply Forall_app in Hy. destruct Hy as [Hmk _].
  exact (marker_not_plain mk Hm Hmk).
Qed.

(** A mark has at least two characters, and one that is not plain after
    the first. *)
Lemma plain_cons_unmarked (u : N) (z : jsstring) :
  Forall (fun v => plain v = true) z -> ~ marked (u :: z).
Proof.
  intros Hz (mk & y' & E & Hm).
  destruct Hm as [d Hd| |w Hw| |]; cbn in E; injection E as _ E; subst z;
    repeat match goal with
           | H : Forall _ (_ :: _) |- _ => inversion H; subst; clear H
           end;
    discriminate.
Qed.

Lemma suffix_plain (x y z : jsstring) :
  x ++ y = z -> Forall (fun v => plain v = true) z ->
  Forall (fun v => plain v = true) y.
Proof. intros <- H. apply Forall_app in H. tauto. Qed.

Lemma id_plain_split (u : N) :
  id_plain u = true -> App.id_chars u = true /\ plain u = true.
Proof.
  unfold id_plain, App.id_chars, plain, none_of, code. cbn.
  destruct (u =? 35)%N, (u =? 38)%N, (u =? 63)%N, (u =? 47)%N; simpl;
    intros H; try discriminate; auto.
Qed.

Lemma id_plain_Forall (id : jsstring) :
  Forall (fun u => id_plain u = true) id ->
  Forall (fun u => App.id_chars u = true) id
  /\ Forall (fun u => plain u = true) id.
Proof.
  induction 1 as [|u id Hu _ [IH1 IH2]]; [split; constructor|].
  apply id_plain_split in Hu. destruct Hu. split; constructor; assumption.
Qed.

(** After "watch?v=" and a plain text no mark starts. *)
Lemma watch_is_last (z x y : jsstring) :
  Forall (fun v => plain v = true) z ->
  lit "watch?" ++ lit "v=" ++ z = x ++ y -> x <> [] -> ~ marked y.
Proof.
  intros Hz E Hx. cbn in E.
  destruct x as [|u x]; [contradiction|]. clear Hx.
  injection E as _ E.
  do 7 (destruct x as [|? x];
        [ simpl in E; subst y; intros (mk & y' & E & Hm);
          destruct Hm; cbn in E; discriminate E
        | injection E as _ E ]).
  apply plain_unmarked.
  first [ exact (suffix_plain _ _ _ E Hz)
        | exact (suffix_plain _ _ _ (eq_sym E) Hz) ].
Qed.

(** After "youtu.be/" or "embed/" and a plain text no mark starts. *)
Lemma short_is_last (z x y : jsstring) :
  Forall (fun v => plain v = true) z ->
  (lit "youtu" ++ 46%N :: lit "be/") ++ z = x ++ y -> x <> [] -> ~ marked y.
Proof.
  intros Hz E Hx. cbn in E.
  destruct x as [|u x]; [contradiction|]. clear Hx.
  injection E as _ E.
  do 8 (destruct x as [|? x];
        [ simpl in E; subst y;
          first [ apply plain_cons_unmarked; exact Hz
                | intros (mk & y' & E & Hm);
                  destruct Hm; cbn in E; discriminate E ]
        | injection E as _ E ]).
  apply plain_unmarked.
  first [ exact (suffix_plain _ _ _ E Hz)
        | exact (suffix_plain _ _ _ (eq_sym E) Hz) ].
Qed.

Lemma embed_is_last (z x y : jsstring) :
  Forall (fun v => plain v = true) z ->
  lit "embed/" ++ z = x ++ y -> x <> [] -> ~ marked y.
Proof.
  intros Hz E Hx. cbn in E.
  destruct x as [|u x]; [contradiction|]. clear Hx.
  injection E as _ E.
  do 5 (destruct x as [|? x];
        [ simpl in E; subst y;
          first [ apply plain_cons_unmarked; exact Hz
                | intros (mk & y' & E & Hm);
                  destruct Hm; cbn in E; discriminate E ]
        | injection E as _ E ]).
  apply plain_unmarked.
  first [ exact (suffix_plain _ _ _ E Hz)
        | exact (suffix_plain _ _ _ (eq_sym E) Hz) ].
Qed.

End YouTubeAddresses.

Section YouTubeCorollaries.

Import Utf16 Re ReSpec.
Local Open Scope list_scope.

Lemma id_follows_last_mark_witness :
  App.getYouTubeID
    (lit "https://www.youtube.com/" ++ lit "watch?"
     ++ lit "v=aqz-KE-bpKQ&t=42s")
  = Normal (Some (lit "aqz-KE-bpKQ")).
Proof.
  apply (id_follows_last_mark (lit "https://www.youtube.com/") (lit "watch?")
           (lit "v=aqz-KE-bpKQ&t=42s")).
  - vm_compute. repeat constructor.
  - apply mark_watch.
  - intros x y E Hx.
    destruct x as [|u x]; [contradiction|].
    injection E as _ E.
    refine (no_mark_in_spec _ _ x y E). vm_compute. reflexivity.
Defined.

(** The run behind the mark is the identifier itself when the identifier
    is followed by nothing, or by a character that cannot be part of it. *)
Lemma run_id (id post : jsstring) :
  Forall (fun u => App.id_chars u = true) id ->
  post = [] \/ (exists u r, post = u :: r /\ App.id_chars u = false) ->
  run App.id_chars (id ++ post) = id.
Proof. apply run_app. Qed.

(** X5: for an address that ends with "watch?v=" and an identifier of 11
    code units, none of them [#], [&], [?] or [/], and then nothing or a
    plain text that starts with [#] or [&], [getYouTubeID] answers with the
    identifier. *)
Theorem watch_address_id (pre id post : jsstring) :
  Forall (fun u => dot u = true) pre ->
  length id = 11 ->
  Forall (fun u => id_plain u = true) id ->
  post = [] \/ (exists u r, post = u :: r /\ App.id_chars u = false) ->
  Forall (fun u => plain u = true) post ->
  App.getYouTubeID (pre ++ lit "watch?v=" ++ id ++ post) = Normal (Some id).
Proof.
  intros Hpre Hlen Hid Hpost Hplain.
  apply id_plain_Forall in Hid. destruct Hid as [Hid1 Hid2].
  change (pre ++ lit "watch?v=" ++ id ++ post)
    with (pre ++ lit "watch?" ++ (lit "v=" ++ id ++ post)).
  rewrite getYouTubeID_last_mark.
  - change (after_mark (lit "v=" ++ id ++ post))
      with (run App.id_chars (id ++ post)).
    rewrite (run_id id post Hid1 Hpost), Hlen. reflexivity.
  - exact Hpre.
  - apply mark_watch.
  - intros x y. apply watch_is_last.
    apply Forall_app. split; assumption.
Qed.

Lemma watch_address_id_witness :
  App.getYouTubeID
    (lit "https://www.youtube.com/" ++ lit "watch?v=" ++ lit "aqz-KE-bpKQ"
     ++ lit "&list=PL1")
  = Normal (Some (lit "aqz-KE-bpKQ")).
Proof.
  apply (watch_address_id (lit "https://www.youtube.com/")
           (lit "aqz-KE-bpKQ") (lit "&list=PL1")).
  - vm_compute. repeat constructor.
  - reflexivity.
  - vm_compute. repeat constructor.
  - right. exists 38%N, (lit "list=PL1"). split; reflexivity.
  - vm_compute. repeat constructor.
Defined.

Lemma strip_other (a : ascii) (u : N) (s : jsstring) :
  u <> code a -> strip a (u :: s) = u :: s.
Proof.
  intros H. unfold strip, chr.
  destruct (N.eqb_spec u (code a)); [contradiction | reflexivity].
Qed.

Lemma after_mark_id (u : N) (r post : jsstring) :
  Forall (fun v => App.id_chars v = true) (u :: r) ->
  u <> code "v" -> u <> code "=" ->
  post = [] \/ (exists v q, post = v :: q /\ App.id_chars v = false) ->
  after_mark ((u :: r) ++ post) = u :: r.
Proof.
  intros Hid Hv He Hpost. unfold after_mark. simpl app.
  assert (Hq : u <> code "?").
  { inversion Hid as [|? ? Hu _]; subst. intros ->. discriminate Hu. }
  rewrite (strip_other "?" u _ Hq), (strip_other "v" u _ Hv),
    (strip_other "=" u _ He).
  exact (run_id (u :: r) post Hid Hpost).
Qed.

(** X6: for an address that ends with "youtu.be/" or "embed/" and an
    identifier of 11 code units, none of them [#], [&], [?] or [/], the
    first neither [v] nor [=], and then nothing or a plain text that
    starts with [#] or [&], [getYouTubeID] answers with the identifier. *)
Theorem short_address_id (pre mk id post : jsstring) :
  mk = lit "youtu.be/" \/ mk = lit "embed/" ->
  Forall (fun u => dot u = true) pre ->
  length id = 11 ->
  Forall (fun u => id_plain u = true) id ->
  hd 0%N id <> code "v" -> hd 0%N id <> code "=" ->
  post = [] \/ (exists u r, post = u :: r /\ App.id_chars u = false) ->
  Forall (fun u => plain u = true) post ->
  App.getYouTubeID (pre ++ mk ++ id ++ post) = Normal (Some id).
Proof.
  intros Hmk Hpre Hlen Hid Hv He Hpost Hplain.
  apply id_plain_Forall in Hid. destruct Hid as [Hid1 Hid2].
  destruct id as [|u r]; [discriminate Hlen|]. simpl in Hv, He.
  assert (Hz : Forall (fun w => plain w = true) ((u :: r) ++ post))
    by (apply Forall_app; split; assumption).
  rewrite getYouTubeID_last_mark.
  - rewrite (after_mark_id u r post Hid1 Hv He Hpost), Hlen. reflexivity.
  - exact Hpre.
  - destruct Hmk as [-> | ->];
      [apply (mark_short 46%N); reflexivity | apply mark_embed].
  - intros x y.
    destruct Hmk as [-> | ->];
      [apply short_is_last | apply embed_is_last]; exact Hz.
Qed.

Lemma short_address_id_witness :
  App.getYouTubeID
    (lit "https://" ++ lit "youtu.be/" ++ lit "aqz-KE-bpKQ" ++ lit "&t=42")
  = Normal (Some (lit "aqz-KE-bpKQ")).
Proof.
  apply (short_address_id (lit "https://") (lit "youtu.be/")
           (lit "aqz-KE-bpKQ") (lit "&t=42")).
  - left. reflexivity.
  - vm_compute. repeat constructor.
  - reflexivity.
  - vm_compute. repeat constructor.
  - vm_compute. discriminate.
  - vm_compute. discriminate.
  - right. exists 38%N, (lit "t=42"). split; reflexivity.
  - vm_compute. repeat constructor.
Defined.

Lemma length_run_le (p : N -> bool) (s : jsstring) :
  length (run p s) <= length s.
Proof.
  induction s as [|u s IH]; simpl; [lia|].
  destruct (p u); simpl; lia.
Qed.

Lemma length_strip_le (a : ascii) (s : jsstring) :
  length (strip a s) <= length s.
Proof.
  destruct s as [|u s]; simpl; [lia|]. destruct (chr a u); simpl; lia.
Qed.

(** X7: for an address that ends with "youtu.be/" or "embed/" and an
    identifier of 11 such code units that starts with [v], [getYouTubeID]
    answers with null: the [v] is taken for the one of the pattern, and
    what is left of the identifier is too short. *)
Theorem short_address_v_is_lost (pre mk r post : jsstring) :
  mk = lit "youtu.be/" \/ mk = lit "embed/" ->
  Forall (fun u => dot u = true) pre ->
  length r = 10 ->
  Forall (fun u => id_plain u = true) r ->
  post = [] \/ (exists u q, post = u :: q /\ App.id_chars u = false) ->
  Forall (fun u => plain u = true) post ->
  App.getYouTubeID (pre ++ mk ++ (code "v" :: r) ++ post) = Normal None.
Proof.
  intros Hmk Hpre Hlen Hid Hpost Hplain.
  apply id_plain_Forall in Hid. destruct Hid as [Hid1 Hid2].
  assert (Hz : Forall (fun w => plain w = true) ((code "v" :: r) ++ post)).
  { apply Forall_app. split; [constructor; [reflexivity | exact Hid2]|].
    exact Hplain. }
  rewrite getYouTubeID_last_mark.
  - assert (Hshort : length (after_mark ((code "v" :: r) ++ post)) <= 10).
    { change (after_mark ((code "v" :: r) ++ post))
        with (run App.id_chars (strip "=" (r ++ post))).
      destruct r as [|u r]; [discriminate Hlen|].
      change ((u :: r) ++ post) with (u :: (r ++ post)).
      unfold strip. destruct (chr "=" u).
      - inversion Hid1; subst.
        rewrite (run_id r post); [simpl in Hlen; lia | assumption | exact Hpost].
      - change (u :: r ++ post) with ((u :: r) ++ post).
        rewrite (run_id (u :: r) post Hid1 Hpost). lia. }
    destruct (Nat.eqb_spec (length (after_mark ((code "v" :: r) ++ post))) 11)
      as [E|_]; [lia | reflexivity].
  - exact Hpre.
  - destruct Hmk as [-> | ->];
      [apply (mark_short 46%N); reflexivity | apply mark_embed].
  - intros x y.
    destruct Hmk as [-> | ->];
      [apply short_is_last | apply embed_is_last]; exact Hz.
Qed.

Lemma short_address_v_is_lost_witness :
  App.getYouTubeID
    (lit "https://" ++ lit "youtu.be/" ++ (Re.code "v" :: lit "qz-KE-bpKQ")
     ++ [])
  = Normal None.
Proof.
  apply (short_address_v_is_lost (lit "https://") (lit "youtu.be/")
           (lit "qz-KE-bpKQ") []).
  - left. reflexivity.
  - vm_compute. repeat constructor.
  - reflexivity.
  - vm_compute. repeat constructor.
  - left. reflexivity.
  - constructor.
Defined.

End YouTubeCorollaries.

(** ** The capture handler *)

Section Capture.

Import Utf16 Re ReSpec.
Local Open Scope list_scope.

Variable JSON_parse : string -> Completion JSValue.
Variable generateContent : Service.
Variable timer_first : bool.

(** The resolver fulfils by the deadline with truthy fields. *)
Lemma resolve_truthy (address : string) :
  exists t realInfo,
    fetchRealVideoMetadata JSON_parse generateContent timer_first address
    = Some (t, Fulfilled realInfo)
    /\ (t <= TIMEOUT_MS)%N
    /\ forall f, ToBoolean (field f realInfo) = true.
Proof.
  destruct (resolve_cases JSON_parse generateContent timer_first address)
    as (t & realInfo & Hr & Ht & Hm).
  exists t, realInfo. split; [exact Hr|]. split; [exact Ht|].
  intros f. destruct Hm as [->|(r & _ & Hn)].
  - apply fallback_truthy.
  - eapply normalize_truthy; eassumption.
Qed.

Lemma GetQuality_truthy (sizes : JSValue) (k : string) :
  ToBoolean sizes = true ->
  App.GetQuality sizes k = Normal (size_of sizes k).
Proof. destruct sizes; simpl; intros H; discriminate || reflexivity. Qed.

Lemma updatedFormats_truthy (realInfo : RealVideoMetadata) :
  ToBoolean (estimatedSizes realInfo) = true ->
  App.updatedFormats realInfo
  = Normal (List.map (sized (estimatedSizes realInfo)) Types.DEFAULT_FORMATS).
Proof.
  intros H. unfold App.updatedFormats, Types.DEFAULT_FORMATS. simpl.
  rewrite !(GetQuality_truthy _ _ H). reflexivity.
Qed.

(** X8: when the size mapping of the resolver's result is truthy, the
    formats offered are the five default ones, in their order, with their
    labels and containers; the size of each is what the mapping holds for
    its quality when that is truthy, and "Calculating..." otherwise, so it
    is never missing. *)
Theorem formats_for_display (realInfo : RealVideoMetadata) :
  ToBoolean (estimatedSizes realInfo) = true ->
  exists fs,
    App.updatedFormats realInfo = Normal fs
    /\ List.map Types.quality fs = quality_keys
    /\ List.map Types.label fs = List.map Types.label Types.DEFAULT_FORMATS
    /\ List.map Types.ext fs = List.map Types.ext Types.DEFAULT_FORMATS
    /\ Forall (fun f =>
                 let s := size_of (estimatedSizes realInfo) (Types.quality f) in
                 Types.size f = (if ToBoolean s then s
                                 else JString "Calculating...")
                 /\ ToBoolean (Types.size f) = true) fs.
Proof.
  intros H. eexists. split; [apply updatedFormats_truthy; exact H|].
  split; [reflexivity|]. split; [reflexivity|]. split; [reflexivity|].
  simpl List.map.
  repeat (apply Forall_cons || apply Forall_nil);
    (split; [reflexivity | apply js_or_truthy; reflexivity]).
Qed.

Lemma formats_for_display_witness :
  exists fs,
    App.updatedFormats
      {| title := JString "T"; author := JString "A"; views := JString "1";
         duration := JString "1:00"; summary := JString "S";
         estimatedSizes := JObject [("1080p", JString "150MB")] |}
    = Normal fs
    /\ List.map Types.size fs
       = [JString "Calculating..."; JString "150MB"; JString "Calculating...";
          JString "Calculating..."; JString "Calculating..."].
Proof.
  destruct (formats_for_display
              {| title := JString "T"; author := JString "A";
                 views := JString "1"; duration := JString "1:00";
                 summary := JString "S";
                 estimatedSizes := JObject [("1080p", JString "150MB")] |}
              eq_refl) as (fs & Hfs & _).
  exists fs. split; [exact Hfs|].
  vm_compute in Hfs. injection Hfs as <-. reflexivity.
Defined.

(** What [handleFetch] does with an address it accepts. *)
Lemma handleFetch_accepted (st : App.AppState) :
  is_empty (App.url st)
  || negb (startsWith (trim (App.url st)) (lit "http")) = false ->
  exists videoId t realInfo,
    App.getYouTubeID (App.url st) = Normal videoId
    /\ fetchRealVideoMetadata JSON_parse generateContent timer_first
         (encode (App.url st)) = Some (t, Fulfilled realInfo)
    /\ (t <= TIMEOUT_MS)%N
    /\ (forall f, ToBoolean (field f realInfo) = true)
    /\ App.handleFetch JSON_parse generateContent timer_first st
       = App.Started
           (App.setThumbnailErrorCount 0 (App.setStatus Types.FETCHING st))
           (Some (t, Fulfilled
                   (App.setStatus Types.READY
                      (App.setMetadata
                         (Some {| Types.title := title realInfo;
                                  Types.author := author realInfo;
                                  Types.duration := duration realInfo;
                                  Types.views := views realInfo;
                                  Types.thumbnail := App.thumbnailOf videoId;
                                  Types.aiSummary := Some (summary realInfo);
                                  Types.formats :=
                                    Some (List.map
                                            (sized (estimatedSizes realInfo))
                                            Types.DEFAULT_FORMATS) |})
                         (App.setThumbnailErrorCount 0
                            (App.setStatus Types.FETCHING st)))))).
Proof.
  intros G.
  assert (Hid : exists videoId, App.getYouTubeID (App.url st) = Normal videoId).
  { destruct (getYouTubeID_cases (App.url st))
      as [H|(id & _ & _ & _ & _ & H & _)]; eauto. }
  destruct Hid as (videoId & Hid).
  destruct (resolve_truthy (encode (App.url st)))
    as (t & realInfo & Hr & Ht & Htruthy).
  exists videoId, t, realInfo.
  split; [exact Hid|]. split; [exact Hr|]. split; [exact Ht|].
  split; [exact Htruthy|].
  unfold App.handleFetch. rewrite G, Hid, Hr.
  unfold async_await, App.show. simpl await. cbn [bind].
  rewrite (updatedFormats_truthy realInfo (Htruthy f_estimatedSizes)).
  reflexivity.
Qed.

(** X9: whatever the service does, a capture that [handleFetch] accepts
    ends by the deadline with the status READY, never ERROR: the state
    holds the resolver's title, author, duration and views and the five
    formats, each with a size that is truthy. *)
Theorem capture_ends_ready (st : App.AppState) :
  (exists message,
      App.handleFetch JSON_parse generateContent timer_first st
      = App.Refused message)
  \/
  exists during t final md fs,
    App.handleFetch JSON_parse generateContent timer_first st
    = App.Started during (Some (t, Fulfilled final))
    /\ (t <= TIMEOUT_MS)%N
    /\ App.status during = Types.FETCHING
    /\ App.thumbnailErrorCount during = 0%N
    /\ App.status final = Types.READY
    /\ App.url final = App.url st
    /\ App.metadata final = Some md
    /\ ToBoolean (Types.title md) = true
    /\ ToBoolean (Types.author md) = true
    /\ Types.formats md = Some fs
    /\ List.map Types.quality fs = quality_keys
    /\ Forall (fun f => ToBoolean (Types.size f) = true) fs.
Proof.
  destruct (is_empty (App.url st)
            || negb (startsWith (trim (App.url st)) (lit "http"))) eqn:G.
  - left. unfold App.handleFetch. rewrite G. eauto.
  - right.
    destruct (handleFetch_accepted st G)
      as (videoId & t & realInfo & _ & _ & Ht & Htruthy & ->).
    do 5 eexists. split; [reflexivity|].
    split; [exact Ht|]. simpl.
    split; [reflexivity|]. split; [reflexivity|]. split; [reflexivity|].
    split; [reflexivity|]. split; [reflexivity|].
    split; [exact (Htruthy f_title)|]. split; [exact (Htruthy f_author)|].
    split; [reflexivity|]. split; [reflexivity|].
    simpl List.map.
    repeat (apply Forall_cons || apply Forall_nil);
      apply js_or_truthy; reflexivity.
Qed.

(** X10: when the service never answers, a capture that [handleFetch]
    accepts ends at 25,000 ms with the status READY and the five formats
    with the sizes of the fallback table. *)
Theorem capture_after_timeout (st : App.AppState) :
  is_empty (App.url st)
  || negb (startsWith (trim (App.url st)) (lit "http")) = false ->
  generateContent (request (encode (App.url st))) = None ->
  exists during final md fs,
    App.handleFetch JSON_parse generateContent timer_first st
    = App.Started during (Some (25000%N, Fulfilled final))
    /\ App.status final = Types.READY
    /\ App.metadata final = Some md
    /\ Types.title md = JString "High-Definition Media Stream"
    /\ Types.formats md = Some fs
    /\ List.map (fun f => (Types.quality f, Types.size f)) fs
       = [("2160p", JString "1.4 GB"); ("1080p", JString "450 MB");
          ("720p", JString "210 MB"); ("360p", JString "65 MB");
          ("audio", JString "8.5 MB")].
Proof.
  intros G Hnever.
  destruct (handleFetch_accepted st G)
    as (videoId & t & realInfo & _ & Hr & _ & _ & ->).
  rewrite (resolve_never JSON_parse generateContent timer_first _ Hnever) in Hr.
  injection Hr as <- <-.
  do 4 eexists. split; [reflexivity|]. simpl. repeat split.
Qed.

(** X11: after a capture that [handleFetch] accepts, the preview is the
    maxresdefault image of the video whose identifier [getYouTubeID] reads
    in the address, and the stock picture when it reads none. *)
Theorem capture_thumbnail (st : App.AppState) (videoId : option jsstring) :
  is_empty (App.url st)
  || negb (startsWith (trim (App.url st)) (lit "http")) = false ->
  App.getYouTubeID (App.url st) = Normal videoId ->
  exists during t final md,
    App.handleFetch JSON_parse generateContent timer_first st
    = App.Started during (Some (t, Fulfilled final))
    /\ App.metadata final = Some md
    /\ Types.thumbnail md
       = match videoId with
         | Some id =>
             lit "https://i.ytimg.com/vi/" ++ id ++ lit "/maxresdefault.jpg"
         | None =>
             lit "https://images.unsplash.com/photo-1598897349388-bc48d4cdb0ee?auto=format&fit=crop&q=80&w=800"
         end.
Proof.
  intros G Hid.
  destruct (handleFetch_accepted st G)
    as (videoId' & t & realInfo & Hid' & _ & _ & _ & ->).
  assert (videoId' = videoId) by congruence. subst videoId'.
  do 4 eexists. split; [reflexivity|]. split; [reflexivity|].
  simpl Types.thumbnail.
  destruct videoId as [id|]; [|reflexivity].
  destruct (getYouTubeID_cases (App.url st))
    as [H|(id' & _ & _ & _ & _ & H & Hlen & _)]; [congruence|].
  assert (id' = id) by congruence. subst id'.
  destruct id; [discriminate Hlen | reflexivity].
Qed.

End Capture.

Lemma capture_thumbnail_witness :
  exists during t final md,
    App.handleFetch JSON.parse never_settles true
      {| App.url := Utf16.lit "https://www.youtube.com/watch?v=aqz-KE-bpKQ";
         App.status := Types.IDLE; App.metadata := None;
         App.selectedFormat := None; App.progress := App.zero;
         App.thumbnailErrorCount := 0 |}
    = App.Started during (Some (t, Fulfilled final))
    /\ App.metadata final = Some md
    /\ Types.thumbnail md
       = Utf16.lit "https://i.ytimg.com/vi/aqz-KE-bpKQ/maxresdefault.jpg".
Proof.
  apply (capture_thumbnail JSON.parse never_settles true
           {| App.url := Utf16.lit "https://www.youtube.com/watch?v=aqz-KE-bpKQ";
              App.status := Types.IDLE; App.metadata := None;
              App.selectedFormat := None; App.progress := App.zero;
              App.thumbnailErrorCount := 0 |}
           (Some (Utf16.lit "aqz-KE-bpKQ"))).
  - vm_compute. reflexivity.
  - vm_compute. reflexivity.
Defined.

Lemma capture_after_timeout_witness :
  exists during final md fs,
    App.handleFetch JSON.parse never_settles true
      {| App.url := Utf16.lit "  https://vimeo.com/76979871 ";
         App.status := Types.IDLE; App.metadata := None;
         App.selectedFormat := None; App.progress := App.zero;
         App.thumbnailErrorCount := 2 |}
    = App.Started during (Some (25000%N, Fulfilled final))
    /\ App.status final = Types.READY
    /\ App.metadata final = Some md
    /\ Types.title md = JString "High-Definition Media Stream"
    /\ Types.formats md = Some fs
    /\ List.map (fun f => (Types.quality f, Types.size f)) fs
       = [("2160p", JString "1.4 GB"); ("1080p", JString "450 MB");
          ("720p", JString "210 MB"); ("360p", JString "65 MB");
          ("audio", JString "8.5 MB")].
Proof.
  apply (capture_after_timeout JSON.parse never_settles true).
  - vm_compute. reflexivity.
  - reflexivity.
Defined.

(** ** The guard of the capture *)

Section Guard.

Import Utf16 Re ReSpec.
Local Open Scope list_scope.

Lemma startsWith_spec (p s : jsstring) :
  startsWith s p = true <-> exists r, s = p ++ r.
Proof.
  revert s. induction p as [|a p IH]; intros s.
  - split; [intros _; exists s; reflexivity|].
    intros _. destruct s; reflexivity.
  - destruct s as [|b s]; simpl.
    + split; [discriminate | intros (r & E); discriminate E].
    + rewrite andb_true_iff, N.eqb_eq, IH. split.
      * intros (-> & r & ->). exists r. reflexivity.
      * intros (r & E). injection E as -> ->. eauto.
Qed.

Lemma trimStart_suffix (s : jsstring) : exists ws, s = ws ++ trimStart s.
Proof.
  induction s as [|u s (ws & IH)]; simpl.
  - exists []. reflexivity.
  - destruct (is_space u).
    + exists (u :: ws). simpl. f_equal. exact IH.
    + exists []. reflexivity.
Qed.

Lemma trimStart_app_nonspace (l m : jsstring) (c : N) :
  is_space c = false -> trimStart (l ++ c :: m) = trimStart l ++ c :: m.
Proof.
  intros Hc. induction l as [|u l IH]; simpl.
  - rewrite Hc. reflexivity.
  - destruct (is_space u); [exact IH | reflexivity].
Qed.

Lemma trimEnd_prefix (t : jsstring) : exists ws, t = trimEnd t ++ ws.
Proof.
  unfold trimEnd. destruct (trimStart_suffix (rev t)) as (ws & E).
  exists (rev ws). rewrite <- rev_app_distr, <- E, rev_involutive.
  reflexivity.
Qed.

Lemma trimEnd_app_nonspace (a r : jsstring) (c : N) :
  is_space c = false -> trimEnd (a ++ c :: r) = a ++ c :: trimEnd r.
Proof.
  intros Hc. unfold trimEnd.
  rewrite rev_app_distr. simpl rev. rewrite <- app_assoc. simpl app.
  rewrite (trimStart_app_nonspace _ _ _ Hc).
  rewrite rev_app_distr. simpl rev. rewrite rev_involutive.
  rewrite <- app_assoc. reflexivity.
Qed.

(** White space at the end does not matter to the test for "http". *)
Lemma startsWith_trimEnd (t : jsstring) :
  startsWith (trimEnd t) (lit "http") = startsWith t (lit "http").
Proof.
  destruct (startsWith t (lit "http")) eqn:E.
  - apply startsWith_spec in E. destruct E as (r & ->).
    apply startsWith_spec.
    change (lit "http" ++ r) with ([104; 116; 116]%N ++ 112%N :: r).
    rewrite trimEnd_app_nonspace by reflexivity.
    exists (trimEnd r). reflexivity.
  - destruct (startsWith (trimEnd t) (lit "http")) eqn:E'; [|reflexivity].
    apply startsWith_spec in E'. destruct E' as (r & Hr).
    destruct (trimEnd_prefix t) as (ws & Ht).
    assert (startsWith t (lit "http") = true).
    { apply startsWith_spec. exists (r ++ ws).
      rewrite Ht, Hr, <- app_assoc. reflexivity. }
    congruence.
Qed.

Section Refusal.

Variable JSON_parse : string -> Completion JSValue.
Variable generateContent : Service.
Variable timer_first : bool.

(** X12: [handleFetch] refuses an address, with an alert and no change of
    the state, exactly when it is empty or its first characters after the
    leading white space are not "http"; white space around the address
    does not matter, and nothing else of the address is looked at. *)
Theorem capture_refused_iff (st : App.AppState) :
  (exists message,
      App.handleFetch JSON_parse generateContent timer_first st
      = App.Refused message)
  <->
  App.url st = [] \/
  ~ exists rest, trimStart (App.url st) = lit "http" ++ rest.
Proof.
  unfold App.handleFetch, trim. rewrite startsWith_trimEnd.
  destruct (App.url st) as [|u s] eqn:U; cbn [is_empty orb].
  - split; [auto | eauto].
  - destruct (startsWith (trimStart (u :: s)) (lit "http")) eqn:E;
      cbn [negb].
    + apply startsWith_spec in E. split.
      * intros (message & H). discriminate H.
      * intros [H|H]; [discriminate H | contradiction].
    + split; [|eauto]. intros _. right. intros H.
      apply startsWith_spec in H. congruence.
Qed.

End Refusal.

End Guard.

(** ** The preview image *)

Section Thumbnail.

Import Utf16 Re ReSpec.
Local Open Scope list_scope.

Lemma thumbnail_errors_S (n : nat) (st : App.AppState) (src : jsstring) :
  thumbnail_errors (S n) st src =
  (r <- thumbnail_errors n st src ;; App.handleThumbnailError (snd r) (fst r)).
Proof. reflexivity. Qed.

Lemma handleThumbnailError_id (st : App.AppState) (src id : jsstring) :
  App.getYouTubeID (App.url st) = Normal (Some id) ->
  exists u r, id = u :: r /\
    App.handleThumbnailError st src =
    if (App.thumbnailErrorCount st =? 0)%N then
      Normal (lit "https://i.ytimg.com/vi/" ++ id ++ lit "/hqdefault.jpg",
              App.setThumbnailErrorCount 1 st)
    else if (App.thumbnailErrorCount st =? 1)%N then
      Normal (lit "https://i.ytimg.com/vi/" ++ id ++ lit "/mqdefault.jpg",
              App.setThumbnailErrorCount 2 st)
    else
      Normal (lit "https://images.unsplash.com/photo-1594909122845-11baa439b7bf?auto=format&fit=crop&q=80&w=800",
              st).
Proof.
  intros Hid.
  destruct (getYouTubeID_cases (App.url st))
    as [H|(id' & _ & _ & _ & _ & H & Hlen & _)]; [congruence|].
  assert (id' = id) by congruence. subst id'.
  destruct id as [|u r]; [discriminate Hlen|].
  exists u, r. split; [reflexivity|].
  unfold App.handleThumbnailError. rewrite Hid. reflexivity.
Qed.

(** X13: for an address with a video identifier and a count of 0, as
    [handleFetch] leaves it, the image that fails to load is replaced by
    the hqdefault one, then by the mqdefault one, and from the third
    failure on by the stock picture; the count never goes beyond 2. *)
Theorem thumbnail_fallback_chain (st : App.AppState) (src id : jsstring) :
  App.getYouTubeID (App.url st) = Normal (Some id) ->
  App.thumbnailErrorCount st = 0%N ->
  thumbnail_errors 1 st src
  = Normal (lit "https://i.ytimg.com/vi/" ++ id ++ lit "/hqdefault.jpg",
            App.setThumbnailErrorCount 1 st)
  /\ thumbnail_errors 2 st src
     = Normal (lit "https://i.ytimg.com/vi/" ++ id ++ lit "/mqdefault.jpg",
               App.setThumbnailErrorCount 2 st)
  /\ forall n, 3 <= n ->
       thumbnail_errors n st src
       = Normal (lit "https://images.unsplash.com/photo-1594909122845-11baa439b7bf?auto=format&fit=crop&q=80&w=800",
                 App.setThumbnailErrorCount 2 st).
Proof.
  intros Hid Hcount.
  assert (H1 : thumbnail_errors 1 st src
               = Normal (lit "https://i.ytimg.com/vi/" ++ id
                         ++ lit "/hqdefault.jpg",
                         App.setThumbnailErrorCount 1 st)).
  { rewrite thumbnail_errors_S. simpl thumbnail_errors. cbn [bind fst snd].
    destruct (handleThumbnailError_id st src id Hid) as (u & r & _ & ->).
    rewrite Hcount. reflexivity. }
  assert (H2 : thumbnail_errors 2 st src
               = Normal (lit "https://i.ytimg.com/vi/" ++ id
                         ++ lit "/mqdefault.jpg",
                         App.setThumbnailErrorCount 2 st)).
  { rewrite thumbnail_errors_S, H1. cbn [bind fst snd].
    destruct (handleThumbnailError_id (App.setThumbnailErrorCount 1 st)
                (lit "https://i.ytimg.com/vi/" ++ id ++ lit "/hqdefault.jpg")
                id Hid) as (u & r & _ & ->).
    reflexivity. }
  split; [exact H1|]. split; [exact H2|].
  intros n Hn. induction n as [|n IH]; [lia|].
  rewrite thumbnail_errors_S.
  destruct (Nat.eq_dec n 2) as [->|Hne].
  - rewrite H2. cbn [bind fst snd].
    destruct (handleThumbnailError_id (App.setThumbnailErrorCount 2 st)
                (lit "https://i.ytimg.com/vi/" ++ id ++ lit "/mqdefault.jpg")
                id Hid) as (u & r & _ & ->).
    reflexivity.
  - rewrite IH by lia. cbn [bind fst snd].
    destruct (handleThumbnailError_id (App.setThumbnailErrorCount 2 st)
                (lit "https://images.unsplash.com/photo-1594909122845-11baa439b7bf?auto=format&fit=crop&q=80&w=800")
                id Hid) as (u & r & _ & ->).
    reflexivity.
Qed.

Lemma thumbnail_fallback_chain_witness :
  thumbnail_errors 3
    {| App.url := lit "https://youtu.be/aqz-KE-bpKQ";
       App.status := Types.READY; App.metadata := None;
       App.selectedFormat := None; App.progress := App.zero;
       App.thumbnailErrorCount := 0 |}
    (lit "https://i.ytimg.com/vi/aqz-KE-bpKQ/maxresdefault.jpg")
  = Normal (lit "https://images.unsplash.com/photo-1594909122845-11baa439b7bf?auto=format&fit=crop&q=80&w=800",
            App.setThumbnailErrorCount 2
              {| App.url := lit "https://youtu.be/aqz-KE-bpKQ";
                 App.status := Types.READY; App.metadata := None;
                 App.selectedFormat := None; App.progress := App.zero;
                 App.thumbnailErrorCount := 0 |}).
Proof.
  refine (proj2 (proj2 (thumbnail_fallback_chain _ _ (lit "aqz-KE-bpKQ") _ _))
            3 _).
  - vm_compute. reflexivity.
  - reflexivity.
  - lia.
Defined.

End Thumbnail.

(** ** The name of the saved file *)

Section FileName.

Import Utf16 Re ReSpec.
Local Open Scope list_scope.

Lemma replace_scan_char (p : N -> bool) (rep s : jsstring) :
  forall i,
    replace_scan (Char p) rep i 0 s
    = flat_map (fun u => if p u then rep else [u]) s.
Proof.
  induction s as [|u s IH]; intros i; [reflexivity|].
  change (replace_scan (Char p) rep i 0 (u :: s))
    with (match (if p u then Some (S i, @nil (nat * jsstring)) else None) with
          | Some (e, _) =>
              match e - i with
              | O => rep ++ u :: replace_scan (Char p) rep (S i) 0 s
              | S k => rep ++ replace_scan (Char p) rep (S i) k s
              end
          | None => u :: replace_scan (Char p) rep (S i) 0 s
          end).
  simpl flat_map. destruct (p u).
  - replace (S i - i) with 1 by lia. rewrite IH. reflexivity.
  - rewrite IH. reflexivity.
Qed.

Lemma In_members (count : nat) :
  forall lo a, In a (members lo count) <->
               (lo <= a /\ a < lo + N.of_nat count)%N.
Proof.
  induction count as [|k IH]; intros lo a; simpl members.
  - simpl. split; [contradiction | lia].
  - simpl In. rewrite IH. lia.
Qed.

(** The class of the pattern holds the letters and the digits of ASCII. *)
Lemma class_alnum (u : N) :
  class_i (range "a" "z" ++ range "0" "9") u = alnum u.
Proof.
  assert (R1 : range "a" "z" = members 97 26) by reflexivity.
  assert (R2 : range "0" "9" = members 48 10) by reflexivity.
  rewrite R1, R2. clear R1 R2.
  apply eq_true_iff_eq. unfold class_i. rewrite existsb_exists.
  unfold alnum, Canonicalize. split.
  - intros (a & Ha & E). apply N.eqb_eq in E.
    apply in_app_iff in Ha.
    rewrite !In_members in Ha.
    change (N.of_nat 26) with 26%N in Ha. change (N.of_nat 10) with 10%N in Ha.
    destruct (97 <=? a)%N eqn:A1; destruct (a <=? 122)%N eqn:A2;
      destruct (97 <=? u)%N eqn:B1; destruct (u <=? 122)%N eqn:B2;
      destruct (65 <=? u)%N eqn:B3; destruct (u <=? 90)%N eqn:B4;
      destruct (48 <=? u)%N eqn:B5; destruct (u <=? 57)%N eqn:B6;
      cbn [andb orb] in *; try reflexivity; exfalso;
      repeat match goal with
             | H : (_ <=? _)%N = true |- _ => apply N.leb_le in H
             | H : (_ <=? _)%N = false |- _ => apply N.leb_gt in H
             end; lia.
  - intros H.
    exists (if (65 <=? u)%N && (u <=? 90)%N then u + 32 else u)%N.
    rewrite in_app_iff, !In_members.
    change (N.of_nat 26) with 26%N. change (N.of_nat 10) with 10%N.
    rewrite N.eqb_eq.
    destruct (65 <=? u)%N eqn:B3; destruct (u <=? 90)%N eqn:B4;
      cbn [andb orb] in H |- *;
      destruct (97 <=? u)%N eqn:B1; destruct (u <=? 122)%N eqn:B2;
      destruct (48 <=? u)%N eqn:B5; destruct (u <=? 57)%N eqn:B6;
      cbn [andb orb] in H; try discriminate H; cbn [andb orb];
      repeat match goal with
             | H : (_ <=? _)%N = true |- _ => apply N.leb_le in H
             | H : (_ <=? _)%N = false |- _ => apply N.leb_gt in H
             end;
      try (assert (C1 : (97 <=? u + 32)%N = true) by (apply N.leb_le; lia);
           assert (C2 : (u + 32 <=? 122)%N = true) by (apply N.leb_le; lia);
           rewrite C1, C2; cbn [andb]);
      split; lia.
Qed.

Lemma flat_map_single {A B} (f : A -> list B) (g : A -> B) (l : list A) :
  (forall a, f a = [g a]) -> flat_map f l = List.map g l.
Proof.
  intros H. induction l as [|a l IH]; simpl; [reflexivity|].
  rewrite H, IH. reflexivity.
Qed.

(** The text that [safeName] makes of a title. *)
Lemma sanitized (s : jsstring) :
  toLowerCase (replace_all App.unsafe (lit "_") s) = List.map sanitize s.
Proof.
  unfold replace_all, App.unsafe. rewrite replace_scan_char.
  rewrite (flat_map_single _ (fun u => if alnum u then u else 95%N)).
  - unfold toLowerCase. rewrite map_map. apply map_ext. intros u.
    unfold sanitize. destruct (alnum u); reflexivity.
  - intros u. rewrite class_alnum. destruct (alnum u); reflexivity.
Qed.

Lemma sanitize_name_char (u : N) : name_char (sanitize u) = true.
Proof.
  unfold sanitize, alnum, name_char.
  destruct (97 <=? u)%N eqn:A1; destruct (u <=? 122)%N eqn:A2;
    destruct (65 <=? u)%N eqn:A3; destruct (u <=? 90)%N eqn:A4;
    destruct (48 <=? u)%N eqn:A5; destruct (u <=? 57)%N eqn:A6;
    simpl; try reflexivity;
    rewrite ?orb_true_iff, ?andb_true_iff, ?N.leb_le, ?N.eqb_eq;
    repeat match goal with
           | H : (_ <=? _)%N = true |- _ => apply N.leb_le in H
           | H : (_ <=? _)%N = false |- _ => apply N.leb_gt in H
           end; lia.
Qed.

Section AfterCapture.

Variable JSON_parse : string -> Completion JSValue.
Variable generateContent : Service.
Variable timer_first : bool.

(** X14: for a title that is a text, [safeName] is the title with its
    letters in lower case and every code unit that is neither a letter nor
    a digit of ASCII replaced by [_], or "visiontube_extract" when that is
    empty; so it is never empty and holds only lower-case letters, digits
    and [_]. *)
Theorem safe_name_of_text (st : App.AppState) (md : Types.VideoMetadata)
    (s : string) :
  App.metadata st = Some md ->
  Types.title md = JString s ->
  exists name,
    App.safeName st = Normal name
    /\ name = (if is_empty (units s) then lit "visiontube_extract"
               else List.map sanitize (units s))
    /\ name <> []
    /\ Forall (fun u => name_char u = true) name.
Proof.
  intros Hmd Ht. unfold App.safeName. rewrite Hmd, Ht, sanitized.
  eexists. split; [reflexivity|].
  destruct (units s) as [|u l]; simpl is_empty; cbv iota.
  - split; [reflexivity|]. split; [discriminate|].
    vm_compute. repeat constructor.
  - split; [reflexivity|]. split; [discriminate|].
    apply Forall_forall. intros x Hx.
    apply in_map_iff in Hx. destruct Hx as (y & <- & _).
    apply sanitize_name_char.
Qed.

(** X15: after a capture that [handleFetch] accepts, the name of the file
    to save can be made exactly when the title that the resolver returned
    is a text; for any other title, which is truthy and kept as it is,
    making the name throws a TypeError. *)
Theorem name_after_capture (st : App.AppState) :
  is_empty (App.url st)
  || negb (startsWith (trim (App.url st)) (lit "http")) = false ->
  exists during t final realInfo,
    App.handleFetch JSON_parse generateContent timer_first st
    = App.Started during (Some (t, Fulfilled final))
    /\ fetchRealVideoMetadata JSON_parse generateContent timer_first
         (encode (App.url st)) = Some (t, Fulfilled realInfo)
    /\ App.safeName final
       = match title realInfo with
         | JString s =>
             Normal (if is_empty (units s) then lit "visiontube_extract"
                     else List.map sanitize (units s))
         | _ => Throw TypeError
         end.
Proof.
  intros G.
  destruct (handleFetch_accepted JSON_parse generateContent timer_first st G)
    as (videoId & t & realInfo & _ & Hr & _ & Htruthy & ->).
  do 4 eexists. split; [reflexivity|]. split; [exact Hr|].
  unfold App.safeName. simpl.
  specialize (Htruthy f_title). simpl in Htruthy.
  destruct (title realInfo); try discriminate Htruthy; try reflexivity.
  rewrite sanitized. destruct (units s); reflexivity.
Qed.

End AfterCapture.

End FileName.

Lemma safe_name_of_text_witness :
  exists name,
    App.safeName
      {| App.url := Utf16.lit "https://youtu.be/aqz-KE-bpKQ";
         App.status := Types.READY;
         App.metadata :=
           Some {| Types.title := JString "Big Buck Bunny: 4K!";
                   Types.thumbnail := [];
                   Types.author := JString "Blender";
                   Types.duration := JString "9:56";
                   Types.views := JString "1";
                   Types.aiSummary := None;
                   Types.formats := None |};
         App.selectedFormat := None; App.progress := App.zero;
         App.thumbnailErrorCount := 0 |}
    = Normal name
    /\ name = Utf16.lit "big_buck_bunny__4k_".
Proof.
  destruct (safe_name_of_text
              {| App.url := Utf16.lit "https://youtu.be/aqz-KE-bpKQ";
                 App.status := Types.READY;
                 App.metadata :=
                   Some {| Types.title := JString "Big Buck Bunny: 4K!";
                           Types.thumbnail := [];
                           Types.author := JString "Blender";
                           Types.duration := JString "9:56";
                           Types.views := JString "1";
                           Types.aiSummary := None;
                           Types.formats := None |};
                 App.selectedFormat := None; App.progress := App.zero;
                 App.thumbnailErrorCount := 0 |}
              _ "Big Buck Bunny: 4K!" eq_refl eq_refl)
    as (name & Hname & Heq & _).
  exists name. split; [exact Hname|]. rewrite Heq. vm_compute. reflexivity.
Defined.

Lemma name_after_capture_witness :
  exists during t final realInfo,
    App.handleFetch JSON.parse (responds_at 1200 (Some ill_typed_payload)) true
      {| App.url := Utf16.lit "https://youtu.be/aqz-KE-bpKQ";
         App.status := Types.IDLE; App.metadata := None;
         App.selectedFormat := None; App.progress := App.zero;
         App.thumbnailErrorCount := 0 |}
    = App.Started during (Some (t, Fulfilled final))
    /\ fetchRealVideoMetadata JSON.parse
         (responds_at 1200 (Some ill_typed_payload)) true
         (Utf16.encode (Utf16.lit "https://youtu.be/aqz-KE-bpKQ"))
       = Some (t, Fulfilled realInfo)
    /\ App.safeName final
       = match title realInfo with
         | JString s =>
             Normal (if Utf16.is_empty (Utf16.units s)
                     then Utf16.lit "visiontube_extract"
                     else List.map ReSpec.sanitize (Utf16.units s))
         | _ => Throw TypeError
         end.
Proof.
  apply (name_after_capture JSON.parse
           (responds_at 1200 (Some ill_typed_payload)) true).
  vm_compute. reflexivity.
Defined.

(** ** More on the resolver *)

(** X16: an answer of the service that comes after the deadline is not
    used: whatever it is, the resolver has fulfilled at 25,000 ms with the
    fallback synthesizer's output. *)
Theorem late_answer_is_ignored
    (JSON_parse : string -> Completion JSValue) (generateContent : Service)
    (timer_first : bool) (url : string) (t : N)
    (s : Settlement GenerateContentResponse) :
  generateContent (request url) = Some (t, s) ->
  (TIMEOUT_MS < t)%N ->
  fetchRealVideoMetadata JSON_parse generateContent timer_first url
  = Some (25000%N, Fulfilled (getFallbackMetadata url)).
Proof.
  intros Hg Hlt.
  exact (resolve_late JSON_parse generateContent timer_first url t s Hg Hlt).
Qed.

Lemma late_answer_is_ignored_witness :
  fetchRealVideoMetadata JSON.parse (responds_at 25001 (Some full_payload))
    false a_url
  = Some (25000%N, Fulfilled (getFallbackMetadata a_url)).
Proof.
  apply (late_answer_is_ignored JSON.parse
           (responds_at 25001 (Some full_payload)) false a_url 25001
           (Fulfilled {| text := Some full_payload |})).
  - reflexivity.
  - reflexivity.
Defined.

(** X17: when the query succeeds before the timer with a text that is JSON
    but not an object (a boolean, a number, a text or an array), no field
    can be read from it and the result is made of the defaults alone. *)
Theorem non_object_payload_gives_defaults
    (JSON_parse : string -> Completion JSValue) (generateContent : Service)
    (timer_first : bool) (url : string) (t : N)
    (r : GenerateContentResponse) (data : JSValue) :
  generateContent (request url) = Some (t, Fulfilled r) ->
  (t < TIMEOUT_MS)%N ->
  JSON_parse (text_or_empty_object r) = Normal data ->
  ReSpec.not_an_object data = true ->
  fetchRealVideoMetadata JSON_parse generateContent timer_first url
  = Some (t, Fulfilled
               {| title := JString "Found Media Content";
                  author := JString "Source Verified";
                  views := JString "N/A";
                  duration := JString "00:00";
                  summary := JString "Media analysis complete.";
                  estimatedSizes := fallback_sizes |}).
Proof.
  intros Hg Hlt Hp Hd.
  rewrite (resolve_early JSON_parse generateContent timer_first url t _ Hg Hlt).
  do 2 f_equal. unfold query_value, normalize. simpl await. cbn [bind].
  rewrite Hp. destruct data; try discriminate Hd; reflexivity.
Qed.

Lemma non_object_payload_gives_defaults_witness :
  fetchRealVideoMetadata JSON.parse
    (responds_at 800 (Some "[1, 2, 3]")) true a_url
  = Some (800%N, Fulfilled all_defaults).
Proof.
  apply (non_object_payload_gives_defaults JSON.parse
           (responds_at 800 (Some "[1, 2, 3]")) true a_url 800
           {| text := Some "[1, 2, 3]" |}
           (JArray [JNumber (JSON.decimal_to_number false 1 0);
                    JNumber (JSON.decimal_to_number false 2 0);
                    JNumber (JSON.decimal_to_number false 3 0)])).
  - reflexivity.
  - reflexivity.
  - vm_compute. reflexivity.
  - reflexivity.
Defined.
